(** * gomedia: VP8 / VP9 header parsing and the VP8 RTP depacketizer

    A shallow embedding of [go-codec/vp8.go], [go-codec/vp9.go], the older
    VP8 parser kept beside them, and the [VP8UnPacker] of the rtp package,
    followed by the properties of these functions.

    Conventions.
    - A Go [byte] is a [Byte.byte]; [u8] gives its value as a [Z].
    - Go's fixed-width unsigned integers are [Z] with the wrap-around
      written out ([wrap8], [wrap16], [wrap32]).
    - A Go [error] built by [errors.New] is its message.
    - A call either returns a value, returns an error, or panics
      (index or slice out of range): type [outcome]. *)

From Stdlib Require Import ZArith List String Bool Lia.
From Stdlib Require Import Strings.Byte.
Import ListNotations.
Local Open Scope string_scope.
Local Open Scope list_scope.
Local Open Scope Z_scope.

(** ** Go runtime: errors, panics, slices, machine integers *)

Definition error := string.

Inductive outcome (A : Type) : Type :=
| Ok (a : A)
| Err (e : error)
| Panic.
Arguments Ok {A} a.
Arguments Err {A} e.
Arguments Panic {A}.

Definition bind {A B : Type} (m : outcome A) (k : A -> outcome B) : outcome B :=
  match m with
  | Ok a => k a
  | Err e => Err e
  | Panic => Panic
  end.

Notation "x <- m ;; k" := (bind m (fun x => k))
  (at level 61, m at next level, right associativity).

Definition u8 (b : byte) : Z := Z.of_N (Byte.to_N b).

Definition wrap8 (x : Z) : Z := x mod 2 ^ 8.
Definition wrap16 (x : Z) : Z := x mod 2 ^ 16.
Definition wrap32 (x : Z) : Z := x mod 2 ^ 32.

(** [byte(x)]: conversion of an integer to a byte keeps the low 8 bits. *)
Definition toByte (z : Z) : byte :=
  match Byte.of_N (Z.to_N (wrap8 z)) with
  | Some b => b
  | None => x00
  end.

(** [len(s)] *)
Definition len (s : list byte) : Z := Z.of_nat (List.length s).

(** [s[i]] for a literal index: the value of the byte, or a panic when
    [i] is out of range. *)
Definition index (s : list byte) (i : nat) : outcome Z :=
  match nth_error s i with
  | Some b => Ok (u8 b)
  | None => Panic
  end.

(** [s[n:]]: panics when [n > len(s)]. *)
Definition slice_from (s : list byte) (n : nat) : outcome (list byte) :=
  if (List.length s <? n)%nat then Panic else Ok (skipn n s).

(** The error messages of the sources, under the names the specification
    gives to the error kinds. *)
Definition InputTooShort : error := "frame bytes < 3".
Definition InvalidStartCode : error := "not find Start code".
Definition NotKeyFrame : error := "the frame is not Key frame".
Definition ParseError : error :=
  "failed to parse VP9 header, likely due to out-of-bounds read".

(** ** VP8 header structures (both VP8 files declare the same two) *)

Record VP8FrameTag := {
  FrameType : Z;      (* uint32; 0: I frame, 1: P frame *)
  Version : Z;        (* uint32 *)
  Display : Z;        (* uint32 *)
  FirstPartSize : Z   (* uint32 *)
}.

Record VP8KeyFrameHead := {
  Width : Z;
  Height : Z;
  HorizScale : Z;
  VertScale : Z
}.

(** ** go-codec/vp8.go *)

Module VP8.

Definition DecodeFrameTag (frame : list byte) : outcome VP8FrameTag :=
  if len frame <? 3 then Err "frame bytes < 3"
  else
    b2 <- index frame 2 ;;
    b1 <- index frame 1 ;;
    b0 <- index frame 0 ;;
    let tmp := Z.lor (Z.lor (wrap32 (Z.shiftl b2 16)) (wrap32 (Z.shiftl b1 8))) b0 in
    Ok {| FrameType := Z.land tmp 0x01;
          Version := Z.land (Z.shiftr tmp 1) 0x07;
          Display := Z.land (Z.shiftr tmp 4) 0x01;
          FirstPartSize := Z.land (Z.shiftr tmp 5) 0x7FFFF |}.

Definition DecodeKeyFrameHead (frame : list byte) : outcome VP8KeyFrameHead :=
  if len frame <? 7 then Err "frame bytes < 3"
  else
    f0 <- index frame 0 ;;
    f1 <- index frame 1 ;;
    f2 <- index frame 2 ;;
    if negb (f0 =? 0x9d) || negb (f1 =? 0x01) || negb (f2 =? 0x2a)
    then Err "not find Start code"
    else
      f3 <- index frame 3 ;;
      f4 <- index frame 4 ;;
      f5 <- index frame 5 ;;
      f6 <- index frame 6 ;;
      Ok {| Width := Z.lor (wrap16 (Z.shiftl (Z.land f4 0x3f) 8)) f3;
            Height := Z.lor (wrap16 (Z.shiftl (Z.land f6 0x3f) 8)) f5;
            HorizScale := Z.shiftr f4 6;
            VertScale := Z.shiftr f6 6 |}.

Definition IsVP8KeyFrame (frame : list byte) : bool :=
  match DecodeFrameTag frame with
  | Ok tag => if FrameType tag =? 0 then true else false
  | _ => false
  end.

(** No key-frame test here: the head is decoded from [frame[3:]] whatever
    the frame tag says. *)
Definition GetVP8Resloution (frame : list byte) : outcome (Z * Z) :=
  rest <- slice_from frame 3 ;;
  match DecodeKeyFrameHead rest with
  | Ok head => Ok (Width head, Height head)
  | Err e => Err e
  | Panic => Panic
  end.

(** The record is built from the frame tag alone; the frame type is not
    examined. *)
Definition CreateVP8VpcCExtradata (keyframe : list byte) : outcome (list byte) :=
  match DecodeFrameTag keyframe with
  | Err e => Err e
  | Panic => Panic
  | Ok tag =>
      let bitDepth := 8 in
      let chromaSubsampling := 0 in
      let videoFullRangeFlag := 1 in
      Ok [ toByte (Version tag);
           toByte 0;
           toByte (Z.lor (Z.lor (wrap8 (Z.shiftl (Z.land bitDepth 0x0F) 4))
                                (wrap8 (Z.shiftl (Z.land chromaSubsampling 0x07) 1)))
                         (Z.land videoFullRangeFlag 0x01));
           toByte 2;
           toByte 2;
           toByte 2;
           toByte 0;
           toByte 0 ]
  end.

End VP8.

(** ** The older VP8 parser (same package name, second source file) *)

Module Part000.

Definition DecodeFrameTag (frame : list byte) : outcome VP8FrameTag :=
  if len frame <? 3 then Err "frame bytes < 3"
  else
    b2 <- index frame 2 ;;
    b1 <- index frame 1 ;;
    b0 <- index frame 0 ;;
    let tmp := Z.lor (Z.lor (wrap32 (Z.shiftl b2 16)) (wrap32 (Z.shiftl b1 8))) b0 in
    Ok {| FrameType := Z.land tmp 0x01;
          Version := Z.land (Z.shiftr tmp 1) 0x07;
          Display := Z.land (Z.shiftr tmp 4) 0x01;
          FirstPartSize := Z.land (Z.shiftr tmp 5) 0x7FFFF |}.

Definition DecodeKeyFrameHead (frame : list byte) : outcome VP8KeyFrameHead :=
  if len frame <? 7 then Err "frame bytes < 3"
  else
    f0 <- index frame 0 ;;
    f1 <- index frame 1 ;;
    f2 <- index frame 2 ;;
    if negb (f0 =? 0x9d) || negb (f1 =? 0x01) || negb (f2 =? 0x2a)
    then Err "not find Start code"
    else
      f3 <- index frame 3 ;;
      f4 <- index frame 4 ;;
      f5 <- index frame 5 ;;
      f6 <- index frame 6 ;;
      Ok {| Width := Z.lor (wrap16 (Z.shiftl (Z.land f4 0x3f) 8)) f3;
            Height := Z.lor (wrap16 (Z.shiftl (Z.land f6 0x3f) 8)) f5;
            HorizScale := Z.shiftr f4 6;
            VertScale := Z.shiftr f6 6 |}.

Definition IsKeyFrame (frame : list byte) : bool :=
  match DecodeFrameTag frame with
  | Ok tag => if FrameType tag =? 0 then true else false
  | _ => false
  end.

Definition GetResloution (frame : list byte) : outcome (Z * Z) :=
  if negb (IsKeyFrame frame) then Err "the frame is not Key frame"
  else
    rest <- slice_from frame 3 ;;
    match DecodeKeyFrameHead rest with
    | Ok head => Ok (Width head, Height head)
    | Err e => Err e
    | Panic => Panic
    end.

Definition CreateVP8VpcCExtradata (keyframe : list byte) : outcome (list byte) :=
  if negb (IsKeyFrame keyframe) then Err "not a keyframe"
  else
    match DecodeFrameTag keyframe with
    | Err e => Err e
    | Panic => Panic
    | Ok tag =>
        Ok [ toByte 1; toByte 0; toByte 0; toByte 0;
             toByte (Version tag);
             toByte 0;
             toByte 8;
             toByte 0;
             toByte 1;
             toByte 2;
             toByte 2;
             toByte 2;
             toByte 0;
             toByte 0 ]
    end.

End Part000.

(** ** The bit reader used by the VP9 parser *)

(** Modelled from the spec: [BitStream] with [NewBitStream], [GetBits] and
    [SkipBits] is declared in a file of the codec package that is not among
    the sources at hand. Following the specification's BitReader: one cursor
    over an immutable buffer, bits taken most-significant first across byte
    boundaries as one continuous stream, and a read or skip wider than what
    remains fails without moving the cursor. A failure is [None]; in Go it
    is the panic that [GetVP9Resloution] recovers from. *)
Record BitStream := {
  bits : list byte;
  position : nat   (* bit offset, 0 = most significant bit of byte 0 *)
}.

Definition NewBitStream (buf : list byte) : BitStream :=
  {| bits := buf; position := 0 |}.

(** The bit at absolute offset [i], as 0 or 1. *)
Definition bitAt (buf : list byte) (i : nat) : Z :=
  match nth_error buf (i / 8) with
  | Some b => Z.b2z (Z.testbit (u8 b) (Z.of_nat (7 - i mod 8)))
  | None => 0
  end.

(** The accumulating loop of a read: [n] bits from offset [i]. *)
Fixpoint readFrom (buf : list byte) (i n : nat) (acc : Z) : Z :=
  match n with
  | O => acc
  | S k => readFrom buf (S i) k (Z.lor (Z.shiftl acc 1) (bitAt buf i))
  end.

Definition Reader (A : Type) : Type := BitStream -> option (A * BitStream).

Definition ret {A : Type} (a : A) : Reader A := fun bs => Some (a, bs).

Definition rbind {A B : Type} (m : Reader A) (k : A -> Reader B) : Reader B :=
  fun bs =>
    match m bs with
    | Some (a, bs') => k a bs'
    | None => None
    end.

Notation "x <~ m ;; k" := (rbind m (fun x => k))
  (at level 61, m at next level, right associativity).
Notation "m ;;; k" := (rbind m (fun _ => k))
  (at level 61, right associativity).

Definition when (c : bool) (m : Reader unit) : Reader unit :=
  if c then m else ret tt.

Definition GetBits (n : nat) : Reader Z :=
  fun bs =>
    if (position bs + n <=? 8 * List.length (bits bs))%nat
    then Some (readFrom (bits bs) (position bs) n 0,
               {| bits := bits bs; position := position bs + n |})
    else None.

Definition SkipBits (n : nat) : Reader unit :=
  fun bs =>
    if (position bs + n <=? 8 * List.length (bits bs))%nat
    then Some (tt, {| bits := bits bs; position := position bs + n |})
    else None.

(** ** go-codec/vp9.go *)

Module VP9.

Definition IsVP9KeyFrame (frame : list byte) : bool :=
  if len frame <? 1 then false
  else
    match index frame 0 with
    | Ok b =>
        if negb (Z.land b 0xC0 =? 0x80) then false
        else if negb (Z.land b 0x08 =? 0) then false
        else
          let frameType := Z.land (Z.shiftr b 2) 1 in
          frameType =? 0
    | _ => false
    end.

(** Lines 70-111 of [GetVP9Resloution]: frame marker, profile,
    show_existing_frame, the three flag bits, the sync code and the colour
    configuration. The value is the profile. *)
Definition headerPrefix : Reader Z :=
  SkipBits 2 ;;;
  profileHigh <~ GetBits 1 ;;
  profileLow <~ GetBits 1 ;;
  let profile := Z.lor (Z.shiftl profileHigh 1) profileLow in
  when (profile =? 3) (SkipBits 1) ;;;
  showExistingFrame <~ GetBits 1 ;;
  when (showExistingFrame =? 1) (SkipBits 3) ;;;
  SkipBits 1 ;;;
  SkipBits 1 ;;;
  SkipBits 1 ;;;
  SkipBits 24 ;;;
  (if profile >=? 2
   then highBitdepth <~ GetBits 1 ;; when (highBitdepth =? 1) (SkipBits 1)
   else ret tt) ;;;
  colorSpace <~ GetBits 3 ;;
  (if negb (colorSpace =? 7)
   then SkipBits 1 ;;;
        when ((profile =? 1) || (profile =? 3)) (SkipBits 2 ;;; SkipBits 1)
   else when ((profile =? 1) || (profile =? 3)) (SkipBits 1)) ;;;
  ret profile.

(** Lines 113-124: the frame size. *)
Definition frameSize : Reader (Z * Z) :=
  renderAndFrameSizeDifferent <~ GetBits 1 ;;
  when (renderAndFrameSizeDifferent =? 1) (SkipBits 16 ;;; SkipBits 16) ;;;
  widthMinus1 <~ GetBits 16 ;;
  heightMinus1 <~ GetBits 16 ;;
  ret (widthMinus1 + 1, heightMinus1 + 1).

(** The deferred [recover] turns a panic of the reader into the error; the
    named results are still zero then. *)
Definition GetVP9Resloution (frame : list byte) : outcome (Z * Z) :=
  match (headerPrefix ;;; frameSize) (NewBitStream frame) with
  | Some (wh, _) => Ok wh
  | None => Err "failed to parse VP9 header, likely due to out-of-bounds read"
  end.

(** [byte(x)] for an integer expression [x]. *)
Definition byte_of (z : Z) : byte :=
  match Byte.of_N (Z.to_N (wrap8 z)) with
  | Some b => b
  | None => x00
  end.

Definition CreateVP9VpcCExtradata (keyframe : list byte) : outcome (list byte) :=
  b <- index keyframe 0 ;;
  let profile := Z.land (Z.shiftr b 4) 0x03 in
  let bitDepth := if (profile =? 2) || (profile =? 3) then 10 else 8 in
  let chromaSubsampling := 0 in
  let videoFullRangeFlag := 0 in
  Ok [ byte_of profile;
       byte_of 0;
       byte_of (Z.lor (Z.lor (wrap8 (Z.shiftl (Z.land bitDepth 0x0F) 4))
                             (wrap8 (Z.shiftl (Z.land chromaSubsampling 0x07) 1)))
                      (Z.land videoFullRangeFlag 0x01));
       byte_of 2;
       byte_of 2;
       byte_of 2;
       byte_of 0;
       byte_of 0 ].

End VP9.

(** ** The VP8 depacketizer of the rtp package (RFC 7741) *)

Module Rtp.

(** Modelled from the spec: [RtpPacket], its [Decode] and [CommUnPacker]
    are declared elsewhere in the rtp package. Of the decoded packet the
    depacketizer reads the marker, the 16-bit sequence number, the 32-bit
    timestamp and the payload. [CommUnPacker] holds the two callbacks, each
    of which may be nil; here a field says whether the callback is set, and
    every call made is recorded in a trace. *)
Record RtpHdr := {
  Marker : Z;
  SequenceNumber : Z;   (* uint16 *)
  Timestamp : Z         (* uint32 *)
}.

Record RtpPacket := {
  Header : RtpHdr;
  Payload : list byte
}.

Inductive call : Type :=
| CallOnRtp (pkg : RtpPacket)
| CallOnFrame (frame : list byte) (ts : Z) (lost : bool).

Record VP8UnPacker := {
  onRtp : bool;             (* CommUnPacker.onRtp != nil *)
  onFrame : bool;           (* CommUnPacker.onFrame != nil *)
  frameBuffer : list byte;
  timestamp : Z;            (* uint32 *)
  lastSequence : Z;         (* uint16 *)
  lost : bool;
  building : bool
}.

Definition NewVP8UnPacker : VP8UnPacker :=
  {| onRtp := false; onFrame := false; frameBuffer := [];
     timestamp := 0; lastSequence := 0; lost := false; building := false |}.

(** [if cb != nil { cb(...) }] *)
Definition invoke (cb : bool) (c : call) : list call :=
  if cb then [c] else [].

(** Lines 236-253 of [UnPack]: group boundary or sequence continuity, then
    the sequence number is recorded. *)
Definition trackGroup (u : VP8UnPacker) (pkg : RtpPacket) : VP8UnPacker * list call :=
  let hdr := Header pkg in
  if negb (building u) || negb (Timestamp hdr =? timestamp u) then
    let calls :=
      if building u && (len (frameBuffer u) >? 0)
      then invoke (onFrame u) (CallOnFrame (frameBuffer u) (timestamp u) true)
      else [] in
    ({| onRtp := onRtp u; onFrame := onFrame u;
        frameBuffer := [];
        timestamp := Timestamp hdr;
        lastSequence := SequenceNumber hdr;
        lost := false;
        building := true |}, calls)
  else
    ({| onRtp := onRtp u; onFrame := onFrame u;
        frameBuffer := frameBuffer u;
        timestamp := timestamp u;
        lastSequence := SequenceNumber hdr;
        lost := if negb (wrap16 (lastSequence u + 1) =? SequenceNumber hdr)
                then true else lost u;
        building := building u |}, []).

(** Lines 255-280: the length of the payload descriptor, or the error of
    one of the two length guards. *)
Definition descriptorLength (payload : list byte) : outcome Z :=
  let headerLength := 1 in
  p0 <- index payload 0 ;;
  if Z.land p0 0x80 >? 0 then
    if len payload <? 2 then Err "invalid vp8 payload: short extended header"
    else
      extHdr <- index payload 1 ;;
      let headerLength := headerLength + 1 in
      headerLength <-
        (if Z.land extHdr 0x80 >? 0 then
           if len payload <? headerLength + 1
           then Err "invalid vp8 payload: short picture id"
           else
             pid <- index payload (Z.to_nat headerLength) ;;
             if Z.land pid 0x80 >? 0
             then Ok (headerLength + 2)
             else Ok (headerLength + 1)
         else Ok headerLength) ;;
      let headerLength :=
        if Z.land extHdr 0x40 >? 0 then headerLength + 1 else headerLength in
      let headerLength :=
        if (Z.land extHdr 0x20 >? 0) || (Z.land extHdr 0x10 >? 0)
        then headerLength + 1 else headerLength in
      Ok headerLength
  else Ok headerLength.

(** Lines 282-286. *)
Definition storePayload (u : VP8UnPacker) (payload : list byte) (headerLength : Z)
  : outcome VP8UnPacker :=
  if len payload <? headerLength then
    Ok {| onRtp := onRtp u; onFrame := onFrame u;
          frameBuffer := frameBuffer u; timestamp := timestamp u;
          lastSequence := lastSequence u; lost := true;
          building := building u |}
  else
    rest <- slice_from payload (Z.to_nat headerLength) ;;
    Ok {| onRtp := onRtp u; onFrame := onFrame u;
          frameBuffer := frameBuffer u ++ rest; timestamp := timestamp u;
          lastSequence := lastSequence u; lost := lost u;
          building := building u |}.

(** Lines 288-294. *)
Definition closeFrame (u : VP8UnPacker) (pkg : RtpPacket) : VP8UnPacker * list call :=
  if Marker (Header pkg) =? 1 then
    ({| onRtp := onRtp u; onFrame := onFrame u;
        frameBuffer := []; timestamp := timestamp u;
        lastSequence := lastSequence u; lost := lost u;
        building := false |},
     invoke (onFrame u) (CallOnFrame (frameBuffer u) (timestamp u) (lost u)))
  else (u, []).

(** [UnPack]. The argument [decoded] is what [pkg.Decode(pkt)] produced:
    its error, or the decoded packet. The result is the unpacker after the
    call, the callbacks invoked in order, and what the call returned:
    [Ok tt] for nil, [Err] for an error. *)
Definition UnPack (u : VP8UnPacker) (decoded : error + RtpPacket)
  : VP8UnPacker * list call * outcome unit :=
  match decoded with
  | inl err => (u, [], Err err)
  | inr pkg =>
      if len (Payload pkg) <? 1
      then (u, [], Err "vp8 rtp packet payload is empty")
      else
        let seen := invoke (onRtp u) (CallOnRtp pkg) in
        let '(u1, flushed) := trackGroup u pkg in
        match descriptorLength (Payload pkg) with
        | Err e => (u1, seen ++ flushed, Err e)
        | Panic => (u1, seen ++ flushed, Panic)
        | Ok headerLength =>
            match storePayload u1 (Payload pkg) headerLength with
            | Err e => (u1, seen ++ flushed, Err e)
            | Panic => (u1, seen ++ flushed, Panic)
            | Ok u2 =>
                let '(u3, emitted) := closeFrame u2 pkg in
                (u3, seen ++ flushed ++ emitted, Ok tt)
            end
        end
  end.

(** Feeding a sequence of decoded packets, as long as each call succeeds
    or fails with an error; the traces are concatenated. *)
Fixpoint UnPackAll (u : VP8UnPacker) (pkts : list RtpPacket) : VP8UnPacker * list call :=
  match pkts with
  | [] => (u, [])
  | pkg :: rest =>
      let '(u', calls, _) := UnPack u (inr pkg) in
      let '(u'', calls') := UnPackAll u' rest in
      (u'', calls ++ calls')
  end.

End Rtp.

(** * Vocabulary of the statements *)

(** Bits [lo .. lo+n-1] of [x], as a number. *)
Definition bitfield (x lo n : Z) : Z := (x / 2 ^ lo) mod 2 ^ n.

(** The 24-bit integer with byte 0 least significant. *)
Definition tag24 (b0 b1 b2 : byte) : Z := u8 b0 + 2 ^ 8 * u8 b1 + 2 ^ 16 * u8 b2.

(** The value of byte [i] of a frame long enough to have one. *)
Definition byteAt (frame : list byte) (i : nat) : Z := u8 (nth i frame x00).

(** The frame tag as a number: bytes 0..2, byte 0 least significant. *)
Definition tagOf (frame : list byte) : Z :=
  byteAt frame 0 + 2 ^ 8 * byteAt frame 1 + 2 ^ 16 * byteAt frame 2.

(** The little-endian 16-bit pair at offsets [i], [i+1]. *)
Definition le16 (frame : list byte) (i : nat) : Z :=
  byteAt frame i + 2 ^ 8 * byteAt frame (S i).

Definition startCode : list byte := [x9d; x01; x2a].

Definition resolutionOf (r : outcome VP8KeyFrameHead) : outcome (Z * Z) :=
  match r with
  | Ok head => Ok (Width head, Height head)
  | Err e => Err e
  | Panic => Panic
  end.

(** The big-endian number made of the [n] bits at offsets [i .. i+n-1]. *)
Fixpoint beField (buf : list byte) (i n : nat) : Z :=
  match n with
  | O => 0
  | S k => 2 * beField buf i k + bitAt buf (i + k)
  end.

(** A reader keeps the buffer and never moves the cursor backwards. *)
Definition steady {A : Type} (m : Reader A) : Prop :=
  forall bs a bs',
    m bs = Some (a, bs') ->
    bits bs' = bits bs /\ (position bs <= position bs')%nat.

(** A smallest profile-0 key-frame header in the layout the parser reads:
    marker 10, profile 00, show_existing_frame 0, frame_type 0,
    show_frame 1, error_resilient 0; sync code 49 83 42; colour space 010,
    colour range 0; render-and-frame-size-different 0; then the 16-bit
    width minus one (1279) and height minus one (719), and three bits of
    padding. *)
Definition minimalKeyFrameHeader : list byte :=
  [x82; x49; x83; x42; x40; x27; xf8; x16; x78].

Import Rtp.

Definition EmptyPayload : error := "vp8 rtp packet payload is empty".
Definition ShortExtendedHeader : error :=
  "invalid vp8 payload: short extended header".
Definition ShortPictureId : error := "invalid vp8 payload: short picture id".

(** A fresh unpacker on which the caller has set both callbacks. *)
Definition listening : VP8UnPacker :=
  {| onRtp := true; onFrame := true; frameBuffer := [];
     timestamp := 0; lastSequence := 0; lost := false; building := false |}.

Definition packet (marker seq ts : Z) (payload : list byte) : RtpPacket :=
  {| Header := {| Marker := marker; SequenceNumber := seq; Timestamp := ts |};
     Payload := payload |}.

(** The packet opens a new group: nothing is being built, or its timestamp
    differs from the current one. *)
Definition startsGroup (u : VP8UnPacker) (pkg : RtpPacket) : bool :=
  negb (building u) || negb (Timestamp (Header pkg) =? timestamp u).

(** The bytes of the packet's own group held before its payload is added. *)
Definition carried (u : VP8UnPacker) (pkg : RtpPacket) : list byte :=
  if startsGroup u pkg then [] else frameBuffer u.

(** The bytes of a payload that follow a descriptor of length [n]; none
    when the payload is shorter than [n]. *)
Definition kept (payload : list byte) (n : Z) : list byte :=
  if len payload <? n then [] else skipn (Z.to_nat n) payload.

(** The bytes the call adds to the buffer. *)
Definition stored (payload : list byte) : list byte :=
  match descriptorLength payload with
  | Ok n => kept payload n
  | _ => []
  end.

(** The buffer is non-empty only while a frame is being built. *)
Definition buffer_invariant (u : VP8UnPacker) : Prop :=
  building u = false -> frameBuffer u = [].

(** The loss flag once the group has been tracked (lines 236-251). *)
Definition lostAfterTracking (u : VP8UnPacker) (pkg : RtpPacket) : bool :=
  if startsGroup u pkg then false
  else negb (wrap16 (lastSequence u + 1) =? SequenceNumber (Header pkg)) || lost u.

(** The callbacks run before the descriptor is parsed. *)
Definition callsBefore (u : VP8UnPacker) (pkg : RtpPacket) : list call :=
  invoke (onRtp u) (CallOnRtp pkg) ++ snd (trackGroup u pkg).

Definition NotAKeyframe : error := "not a keyframe".

(** Bit budget of a reader: whenever it returns it leaves the buffer as it
    was and has moved the cursor forward by at least [lo] and at most [hi]
    bits, staying within the buffer; and it does return when [hi] bits
    remain. *)
Definition spends {A : Type} (m : Reader A) (lo hi : nat) : Prop :=
  forall bs,
    (forall a bs',
       m bs = Some (a, bs') ->
       bits bs' = bits bs /\
       (position bs + lo <= position bs' <= position bs + hi)%nat /\
       ((position bs <= 8 * List.length (bits bs))%nat ->
        (position bs' <= 8 * List.length (bits bs))%nat)) /\
    ((position bs + hi <= 8 * List.length (bits bs))%nat -> m bs <> None).


(** The payload holds its whole descriptor. *)
Definition intact (payload : list byte) : bool :=
  match descriptorLength payload with
  | Ok n => n <=? len payload
  | _ => false
  end.

Definition isFrameCall (c : call) : bool :=
  match c with
  | CallOnFrame _ _ _ => true
  | CallOnRtp _ => false
  end.

(** Packets of one timestamp with consecutive sequence numbers. *)
Fixpoint inOrder (pkts : list RtpPacket) : Prop :=
  match pkts with
  | p :: (q :: _) as rest =>
      Timestamp (Header q) = Timestamp (Header p) /\
      SequenceNumber (Header q) = wrap16 (SequenceNumber (Header p) + 1) /\
      inOrder rest
  | _ => True
  end.

(** The calls of the packet callback for a run of packets. *)
Definition rtpCalls (u : VP8UnPacker) (pkts : list RtpPacket) : list call :=
  flat_map (fun p => invoke (onRtp u) (CallOnRtp p)) pkts.

(** The bytes a run of packets contributes to its frame. *)
Definition assembled (pkts : list RtpPacket) : list byte :=
  List.concat (map (fun p => stored (Payload p)) pkts).

(** * Properties *)

(** ** Machine-integer facts *)

Lemma u8_range (b : byte) : 0 <= u8 b < 256.
Proof.
  unfold u8. pose proof (Byte.to_N_bounded b) as Hb.
  split; [apply N2Z.is_nonneg | lia].
Qed.

Lemma bitfield_testbit (x lo n i : Z) :
  0 <= lo -> 0 <= n -> 0 <= i ->
  Z.testbit (bitfield x lo n) i = (i <? n) && Z.testbit x (i + lo).
Proof.
  intros Hlo Hn Hi. unfold bitfield.
  rewrite Z.testbit_mod_pow2 by assumption.
  now rewrite Z.div_pow2_bits by assumption.
Qed.

Lemma bitfield_range (x lo n : Z) : 0 <= n -> 0 <= bitfield x lo n < 2 ^ n.
Proof.
  intros Hn. unfold bitfield. apply Z.mod_pos_bound.
  apply Z.pow_pos_nonneg; lia.
Qed.

Lemma land_shiftr_bitfield (x lo n : Z) :
  0 <= lo -> 0 <= n -> Z.land (Z.shiftr x lo) (Z.ones n) = bitfield x lo n.
Proof.
  intros Hlo Hn. unfold bitfield.
  now rewrite Z.land_ones, Z.shiftr_div_pow2.
Qed.

(** Two operands with no common bit: [|] is [+]. *)
Lemma lor_shiftl_add (a b n : Z) :
  0 <= n -> 0 <= b < 2 ^ n -> Z.lor (Z.shiftl a n) b = a * 2 ^ n + b.
Proof.
  intros Hn Hb.
  rewrite Z.shiftl_mul_pow2 by assumption.
  assert (Hdisj : Z.land (a * 2 ^ n) b = 0).
  { apply Z.bits_inj'. intros i Hi.
    rewrite Z.land_spec, Z.bits_0.
    destruct (Z.ltb_spec i n) as [Hlt | Hge].
    - now rewrite Z.mul_pow2_bits_low.
    - rewrite <- (Z.mod_small b (2 ^ n)) by assumption.
      rewrite Z.mod_pow2_bits_high by lia.
      apply andb_false_r. }
  rewrite <- Z.lxor_lor by assumption.
  symmetry. now apply Z.add_nocarry_lxor.
Qed.

Lemma tag24_range (b0 b1 b2 : byte) : 0 <= tag24 b0 b1 b2 < 2 ^ 24.
Proof.
  unfold tag24.
  pose proof (u8_range b0); pose proof (u8_range b1); pose proof (u8_range b2).
  lia.
Qed.

Lemma tag_packing (b0 b1 b2 : byte) :
  Z.lor (Z.lor (wrap32 (Z.shiftl (u8 b2) 16)) (wrap32 (Z.shiftl (u8 b1) 8))) (u8 b0)
  = tag24 b0 b1 b2.
Proof.
  pose proof (u8_range b0) as H0; pose proof (u8_range b1) as H1;
    pose proof (u8_range b2) as H2.
  unfold wrap32, tag24.
  rewrite (Z.shiftl_mul_pow2 (u8 b2)), (Z.shiftl_mul_pow2 (u8 b1)) by lia.
  rewrite !Z.mod_small by lia.
  rewrite <- (Z.shiftl_mul_pow2 (u8 b2)) by lia.
  replace (u8 b1 * 2 ^ 8) with (u8 b1 * 2 ^ 8 + 0) by lia.
  assert (E : Z.shiftl (u8 b2) 16 = Z.shiftl (u8 b2 * 2 ^ 8) 8).
  { rewrite !Z.shiftl_mul_pow2 by lia. lia. }
  rewrite E, Z.add_0_r.
  rewrite <- (Z.shiftl_mul_pow2 (u8 b1)) by lia.
  rewrite <- Z.shiftl_lor.
  rewrite (lor_shiftl_add _ (u8 b0)) by lia.
  rewrite <- (Z.shiftl_mul_pow2 (u8 b2)) by lia.
  rewrite (lor_shiftl_add _ (u8 b1)) by lia.
  lia.
Qed.

(** The low 14 bits of a little-endian 16-bit pair, as the code builds them. *)
Lemma dimension_packing (lo hi : byte) :
  Z.lor (wrap16 (Z.shiftl (Z.land (u8 hi) 0x3f) 8)) (u8 lo)
  = (u8 lo + 2 ^ 8 * u8 hi) mod 2 ^ 14.
Proof.
  pose proof (u8_range lo) as Hl. pose proof (u8_range hi) as Hh.
  change 0x3f with (Z.ones 6). rewrite Z.land_ones by lia.
  pose proof (Z.mod_pos_bound (u8 hi) (2 ^ 6) ltac:(lia)) as Hm.
  unfold wrap16. rewrite (Z.shiftl_mul_pow2 _ 8) by lia.
  rewrite Z.mod_small by lia.
  rewrite <- (Z.shiftl_mul_pow2 _ 8) by lia.
  rewrite lor_shiftl_add by lia.
  pose proof (Z.div_mod (u8 hi) (2 ^ 6) ltac:(lia)) as Hdm.
  replace (u8 lo + 2 ^ 8 * u8 hi)
    with ((u8 hi mod 2 ^ 6 * 2 ^ 8 + u8 lo) + (u8 hi / 2 ^ 6) * 2 ^ 14) by lia.
  rewrite Z.mod_add by lia.
  symmetry. apply Z.mod_small. lia.
Qed.

(** ** Frame shapes *)

Lemma len_cons (b : byte) (s : list byte) : len (b :: s) = len s + 1.
Proof. unfold len. cbn [List.length]. lia. Qed.

Lemma len_nonneg (s : list byte) : 0 <= len s.
Proof. unfold len. lia. Qed.

Lemma len_ge_3 (frame : list byte) :
  3 <= len frame -> exists b0 b1 b2 rest, frame = b0 :: b1 :: b2 :: rest.
Proof.
  destruct frame as [| b0 [| b1 [| b2 rest]]]; unfold len; cbn [List.length];
    try lia.
  intros _. now exists b0, b1, b2, rest.
Qed.

Lemma len_ge_7 (frame : list byte) :
  7 <= len frame ->
  exists f0 f1 f2 f3 f4 f5 f6 rest,
    frame = f0 :: f1 :: f2 :: f3 :: f4 :: f5 :: f6 :: rest.
Proof.
  destruct frame as [| f0 [| f1 [| f2 [| f3 [| f4 [| f5 [| f6 rest]]]]]]];
    unfold len; cbn [List.length]; try lia.
  intros _. now exists f0, f1, f2, f3, f4, f5, f6, rest.
Qed.

Lemma both_tag_decoders_agree (frame : list byte) :
  Part000.DecodeFrameTag frame = VP8.DecodeFrameTag frame.
Proof. reflexivity. Qed.

Lemma both_head_decoders_agree (frame : list byte) :
  Part000.DecodeKeyFrameHead frame = VP8.DecodeKeyFrameHead frame.
Proof. reflexivity. Qed.

Lemma DecodeFrameTag_short (frame : list byte) :
  len frame < 3 -> VP8.DecodeFrameTag frame = Err InputTooShort.
Proof.
  intros H. unfold VP8.DecodeFrameTag.
  destruct (Z.ltb_spec (len frame) 3); [reflexivity | lia].
Qed.

Lemma DecodeFrameTag_cons (b0 b1 b2 : byte) (rest : list byte) :
  VP8.DecodeFrameTag (b0 :: b1 :: b2 :: rest)
  = Ok {| FrameType := bitfield (tag24 b0 b1 b2) 0 1;
          Version := bitfield (tag24 b0 b1 b2) 1 3;
          Display := bitfield (tag24 b0 b1 b2) 4 1;
          FirstPartSize := bitfield (tag24 b0 b1 b2) 5 19 |}.
Proof.
  unfold VP8.DecodeFrameTag.
  assert (Hlen : (len (b0 :: b1 :: b2 :: rest) <? 3) = false).
  { apply Z.ltb_ge. rewrite !len_cons. pose proof (len_nonneg rest). lia. }
  rewrite Hlen. cbn [index nth_error bind].
  rewrite tag_packing.
  set (t := tag24 b0 b1 b2).
  do 2 f_equal.
  - rewrite <- (Z.shiftr_0_r t) at 1.
    exact (land_shiftr_bitfield t 0 1 ltac:(lia) ltac:(lia)).
  - exact (land_shiftr_bitfield t 1 3 ltac:(lia) ltac:(lia)).
  - exact (land_shiftr_bitfield t 4 1 ltac:(lia) ltac:(lia)).
  - exact (land_shiftr_bitfield t 5 19 ltac:(lia) ltac:(lia)).
Qed.

Lemma u8_inj (a b : byte) : u8 a = u8 b -> a = b.
Proof.
  unfold u8. intros H. apply N2Z.inj in H.
  pose proof (Byte.of_to_N a) as Ha. pose proof (Byte.of_to_N b) as Hb.
  rewrite H in Ha. congruence.
Qed.

Lemma u8_eqb (a b : byte) : (u8 a =? u8 b) = true <-> a = b.
Proof.
  rewrite Z.eqb_eq. split; [apply u8_inj | now intros ->].
Qed.

Lemma DecodeKeyFrameHead_short (frame : list byte) :
  len frame < 7 -> VP8.DecodeKeyFrameHead frame = Err InputTooShort.
Proof.
  intros H. unfold VP8.DecodeKeyFrameHead.
  destruct (Z.ltb_spec (len frame) 7); [reflexivity | lia].
Qed.

Lemma DecodeKeyFrameHead_cons (f0 f1 f2 f3 f4 f5 f6 : byte) (rest : list byte) :
  VP8.DecodeKeyFrameHead (f0 :: f1 :: f2 :: f3 :: f4 :: f5 :: f6 :: rest)
  = if negb (u8 f0 =? 0x9d) || negb (u8 f1 =? 0x01) || negb (u8 f2 =? 0x2a)
    then Err InvalidStartCode
    else Ok {| Width := (u8 f3 + 2 ^ 8 * u8 f4) mod 2 ^ 14;
               Height := (u8 f5 + 2 ^ 8 * u8 f6) mod 2 ^ 14;
               HorizScale := u8 f4 / 2 ^ 6;
               VertScale := u8 f6 / 2 ^ 6 |}.
Proof.
  unfold VP8.DecodeKeyFrameHead.
  assert (Hlen : (len (f0 :: f1 :: f2 :: f3 :: f4 :: f5 :: f6 :: rest) <? 7) = false).
  { apply Z.ltb_ge. rewrite !len_cons. pose proof (len_nonneg rest). lia. }
  rewrite Hlen. cbn [index nth_error bind].
  destruct (negb (u8 f0 =? 0x9d) || negb (u8 f1 =? 0x01) || negb (u8 f2 =? 0x2a));
    [reflexivity |].
  cbn [bind].
  rewrite !dimension_packing, !Z.shiftr_div_pow2 by lia.
  reflexivity.
Qed.

Lemma start_code_test (f0 f1 f2 : byte) :
  negb (u8 f0 =? 0x9d) || negb (u8 f1 =? 0x01) || negb (u8 f2 =? 0x2a) = false
  <-> [f0; f1; f2] = startCode.
Proof.
  change 0x9d with (u8 x9d). change 0x01 with (u8 x01). change 0x2a with (u8 x2a).
  rewrite !orb_false_iff, !negb_false_iff, !u8_eqb. unfold startCode.
  split.
  - intros [[-> ->] ->]. reflexivity.
  - intros H. injection H as -> -> ->. auto.
Qed.

Lemma DecodeKeyFrameHead_bad_start (frame : list byte) :
  7 <= len frame -> firstn 3 frame <> startCode ->
  VP8.DecodeKeyFrameHead frame = Err InvalidStartCode.
Proof.
  intros Hlen Hsc.
  destruct (len_ge_7 frame Hlen) as (f0 & f1 & f2 & f3 & f4 & f5 & f6 & rest & ->).
  rewrite DecodeKeyFrameHead_cons. cbn [firstn] in Hsc.
  destruct (negb (u8 f0 =? 0x9d) || negb (u8 f1 =? 0x01) || negb (u8 f2 =? 0x2a))
    eqn:E; [reflexivity |].
  apply start_code_test in E. contradiction.
Qed.

Lemma top_two_bits (b : byte) : bitfield (u8 b) 6 2 = u8 b / 2 ^ 6.
Proof.
  pose proof (u8_range b) as Hb. unfold bitfield.
  apply Z.mod_small. split; [apply Z.div_pos; lia |].
  apply Z.div_lt_upper_bound; lia.
Qed.

Lemma DecodeKeyFrameHead_good (frame : list byte) :
  7 <= len frame -> firstn 3 frame = startCode ->
  VP8.DecodeKeyFrameHead frame
  = Ok {| Width := bitfield (le16 frame 3) 0 14;
          Height := bitfield (le16 frame 5) 0 14;
          HorizScale := bitfield (byteAt frame 4) 6 2;
          VertScale := bitfield (byteAt frame 6) 6 2 |}.
Proof.
  intros Hlen Hsc.
  destruct (len_ge_7 frame Hlen) as (f0 & f1 & f2 & f3 & f4 & f5 & f6 & rest & ->).
  rewrite DecodeKeyFrameHead_cons. cbn [firstn] in Hsc.
  apply start_code_test in Hsc. rewrite Hsc.
  unfold le16, byteAt. cbn [nth]. rewrite !top_two_bits.
  unfold bitfield. rewrite !Z.pow_0_r, !Z.div_1_r. reflexivity.
Qed.

(** C6. On every input of at least 3 bytes [DecodeFrameTag] succeeds, and
    its fields are the bit fields of the 24-bit number whose least
    significant byte is byte 0: frame type is bit 0, version bits 1-3,
    display bit 4, first partition size bits 5-23, hence in [0, 2^19).
    On a shorter input it fails with the too-short error. The result is a
    function of the input, and the two copies of the decoder agree. *)
Theorem decode_frame_tag_layout (frame : list byte) :
  (3 <= len frame ->
     let tmp := tagOf frame in
     0 <= tmp < 2 ^ 24 /\
     VP8.DecodeFrameTag frame
     = Ok {| FrameType := bitfield tmp 0 1;
             Version := bitfield tmp 1 3;
             Display := bitfield tmp 4 1;
             FirstPartSize := bitfield tmp 5 19 |} /\
     0 <= bitfield tmp 5 19 < 2 ^ 19) /\
  (len frame < 3 -> VP8.DecodeFrameTag frame = Err InputTooShort) /\
  (forall t1 t2,
     VP8.DecodeFrameTag frame = Ok t1 -> VP8.DecodeFrameTag frame = Ok t2 ->
     t1 = t2) /\
  Part000.DecodeFrameTag frame = VP8.DecodeFrameTag frame.
Proof.
  split; [| split; [| split]].
  - intros Hlen. destruct (len_ge_3 frame Hlen) as (b0 & b1 & b2 & rest & ->).
    cbv zeta. unfold tagOf, byteAt. cbn [nth].
    fold (tag24 b0 b1 b2).
    split; [apply tag24_range |].
    split; [apply DecodeFrameTag_cons |].
    apply bitfield_range. lia.
  - apply DecodeFrameTag_short.
  - intros t1 t2 H1 H2. rewrite H1 in H2. now injection H2.
  - reflexivity.
Qed.

Lemma decode_frame_tag_layout_witness :
  3 <= len [x51; x12; x00] /\
  VP8.DecodeFrameTag [x51; x12; x00]
  = Ok {| FrameType := 1; Version := 0; Display := 1; FirstPartSize := 146 |}.
Proof.
  split; [unfold len; simpl; lia |].
  destruct (proj1 (decode_frame_tag_layout [x51; x12; x00])) as (_ & H & _).
  - unfold len; simpl; lia.
  - rewrite H. reflexivity.
Defined.

(** C7. [DecodeKeyFrameHead] fails with the too-short error on fewer than
    7 bytes; on 7 bytes or more it fails with the start-code error unless
    bytes 0..2 are 9D 01 2A, and otherwise returns as width the low 14 bits
    of the little-endian pair at offsets 3-4, as horizontal scale the top
    two bits of byte 4, and height and vertical scale likewise from
    offsets 5-6. *)
Theorem decode_key_frame_head_layout (frame : list byte) :
  (len frame < 7 -> VP8.DecodeKeyFrameHead frame = Err InputTooShort) /\
  (7 <= len frame -> firstn 3 frame <> startCode ->
     VP8.DecodeKeyFrameHead frame = Err InvalidStartCode) /\
  (7 <= len frame -> firstn 3 frame = startCode ->
     VP8.DecodeKeyFrameHead frame
     = Ok {| Width := bitfield (le16 frame 3) 0 14;
             Height := bitfield (le16 frame 5) 0 14;
             HorizScale := bitfield (byteAt frame 4) 6 2;
             VertScale := bitfield (byteAt frame 6) 6 2 |}) /\
  Part000.DecodeKeyFrameHead frame = VP8.DecodeKeyFrameHead frame.
Proof.
  split; [apply DecodeKeyFrameHead_short |].
  split; [apply DecodeKeyFrameHead_bad_start |].
  split; [apply DecodeKeyFrameHead_good | reflexivity].
Qed.

Lemma decode_key_frame_head_layout_witness :
  VP8.DecodeKeyFrameHead [x9d; x01; x2a; x80; x42; xe0; x81]
  = Ok {| Width := 640; Height := 480; HorizScale := 1; VertScale := 2 |} /\
  VP8.DecodeKeyFrameHead [x9d; x01; x2b; x80; x42; xe0; x81] = Err InvalidStartCode /\
  VP8.DecodeKeyFrameHead [x9d; x01; x2a; x80; x42; xe0] = Err InputTooShort.
Proof.
  split; [| split].
  - destruct (decode_key_frame_head_layout [x9d; x01; x2a; x80; x42; xe0; x81])
      as (_ & _ & H & _).
    rewrite H; [reflexivity | unfold len; simpl; lia | reflexivity].
  - destruct (decode_key_frame_head_layout [x9d; x01; x2b; x80; x42; xe0; x81])
      as (_ & H & _).
    apply H; [unfold len; simpl; lia | discriminate].
  - destruct (decode_key_frame_head_layout [x9d; x01; x2a; x80; x42; xe0])
      as (H & _).
    apply H. unfold len; simpl; lia.
Defined.

(** ** Resolution of a VP8 frame *)

Lemma slice_from_ok (s : list byte) (n : nat) :
  Z.of_nat n <= len s -> slice_from s n = Ok (skipn n s).
Proof.
  unfold len, slice_from. intros H.
  destruct (Nat.ltb_spec (List.length s) n); [lia | reflexivity].
Qed.

Lemma len_skipn (s : list byte) (n : nat) :
  Z.of_nat n <= len s -> len (skipn n s) = len s - Z.of_nat n.
Proof.
  unfold len. intros H. rewrite List.length_skipn. lia.
Qed.

Lemma IsKeyFrame_len (frame : list byte) :
  Part000.IsKeyFrame frame = true -> 3 <= len frame.
Proof.
  unfold Part000.IsKeyFrame. intros H.
  destruct (Z.ltb_spec (len frame) 3) as [Hlt | Hge]; [| exact Hge].
  change (Part000.DecodeFrameTag frame) with (VP8.DecodeFrameTag frame) in H.
  rewrite DecodeFrameTag_short in H by assumption. discriminate.
Qed.

Lemma GetVP8Resloution_unfold (frame : list byte) :
  3 <= len frame ->
  VP8.GetVP8Resloution frame = resolutionOf (VP8.DecodeKeyFrameHead (skipn 3 frame)).
Proof.
  intros H. unfold VP8.GetVP8Resloution.
  rewrite slice_from_ok by exact H. reflexivity.
Qed.

Lemma GetResloution_key (frame : list byte) :
  Part000.IsKeyFrame frame = true ->
  Part000.GetResloution frame = resolutionOf (VP8.DecodeKeyFrameHead (skipn 3 frame)).
Proof.
  intros H. unfold Part000.GetResloution. rewrite H. cbn [negb].
  rewrite slice_from_ok by (apply IsKeyFrame_len; exact H). reflexivity.
Qed.

(** C2, as the code has it. The older [GetResloution] fails with the
    not-a-key-frame error on every frame on which [IsKeyFrame] is false.
    On a key frame it fails with the too-short error when the frame has
    fewer than 10 bytes, and with the start-code error when it has at least
    10 bytes and bytes 3..5 are not 9D 01 2A. [GetVP8Resloution] of
    go-codec makes no key-frame test: on every frame of at least 3 bytes
    it returns what [DecodeKeyFrameHead] gives on the bytes after the tag,
    so a frame of at least 10 bytes with the start code yields the
    dimensions read at offsets 6-9 whatever its frame-type bit. *)
Theorem get_resolution_errors (frame : list byte) :
  (Part000.IsKeyFrame frame = false ->
     Part000.GetResloution frame = Err NotKeyFrame) /\
  (Part000.IsKeyFrame frame = true -> len frame < 10 ->
     Part000.GetResloution frame = Err InputTooShort) /\
  (Part000.IsKeyFrame frame = true -> 10 <= len frame ->
     firstn 3 (skipn 3 frame) <> startCode ->
     Part000.GetResloution frame = Err InvalidStartCode) /\
  (3 <= len frame ->
     VP8.GetVP8Resloution frame
     = resolutionOf (VP8.DecodeKeyFrameHead (skipn 3 frame))) /\
  (10 <= len frame -> firstn 3 (skipn 3 frame) = startCode ->
     VP8.GetVP8Resloution frame
     = Ok (bitfield (le16 frame 6) 0 14, bitfield (le16 frame 8) 0 14)).
Proof.
  split; [| split; [| split; [| split]]].
  - intros H. unfold Part000.GetResloution. now rewrite H.
  - intros Hk Hlen. rewrite GetResloution_key by exact Hk.
    pose proof (IsKeyFrame_len frame Hk) as H3.
    rewrite DecodeKeyFrameHead_short; [reflexivity |].
    rewrite len_skipn by exact H3. lia.
  - intros Hk Hlen Hsc. rewrite GetResloution_key by exact Hk.
    rewrite DecodeKeyFrameHead_bad_start; [reflexivity | | exact Hsc].
    rewrite len_skipn; lia.
  - apply GetVP8Resloution_unfold.
  - intros Hlen Hsc. rewrite GetVP8Resloution_unfold by lia.
    rewrite DecodeKeyFrameHead_good; [| rewrite len_skipn; lia | exact Hsc].
    cbn [resolutionOf Width Height].
    destruct (len_ge_3 frame ltac:(lia)) as (b0 & b1 & b2 & rest & ->).
    reflexivity.
Qed.

Lemma get_resolution_errors_witness :
  Part000.GetResloution [x01; x00; x00; x9d; x01; x2a; x80; x02; xe0; x01]
  = Err NotKeyFrame /\
  Part000.GetResloution [x00; x00; x00; x01; x02; x03] = Err InputTooShort /\
  Part000.GetResloution [x00; x00; x00; x01; x02; x03; x80; x02; xe0; x01]
  = Err InvalidStartCode /\
  VP8.GetVP8Resloution [x01; x00; x00; x9d; x01; x2a; x80; x02; xe0; x01]
  = Ok (640, 480).
Proof.
  split; [| split; [| split]].
  - apply (proj1 (get_resolution_errors _)). reflexivity.
  - apply (proj1 (proj2 (get_resolution_errors _)));
      [reflexivity | unfold len; simpl; lia].
  - apply (proj1 (proj2 (proj2 (get_resolution_errors _))));
      [reflexivity | unfold len; simpl; lia | discriminate].
  - rewrite (proj2 (proj2 (proj2 (proj2 (get_resolution_errors _)))));
      [reflexivity | unfold len; simpl; lia | reflexivity].
Defined.

(** C2 as stated fails twice. [GetVP8Resloution] returns a resolution for
    a frame on which [IsVP8KeyFrame] is false; and [GetResloution], on a
    6-byte key frame whose bytes after the tag are not the start code,
    reports the too-short error, not the start-code error. *)
Lemma get_resolution_counterexample :
  (VP8.IsVP8KeyFrame [x01; x00; x00; x9d; x01; x2a; x80; x02; xe0; x01] = false /\
   VP8.GetVP8Resloution [x01; x00; x00; x9d; x01; x2a; x80; x02; xe0; x01]
   = Ok (640, 480)) /\
  (Part000.IsKeyFrame [x00; x00; x00; x01; x02; x03] = true /\
   firstn 3 (skipn 3 [x00; x00; x00; x01; x02; x03]) <> startCode /\
   Part000.GetResloution [x00; x00; x00; x01; x02; x03] = Err InputTooShort /\
   Part000.GetResloution [x00; x00; x00; x01; x02; x03] <> Err InvalidStartCode).
Proof.
  repeat split; try reflexivity; discriminate.
Qed.

(** ** The bit reader *)

Lemma bitAt_range (buf : list byte) (i : nat) : 0 <= bitAt buf i < 2.
Proof.
  unfold bitAt. destruct (nth_error buf (i / 8)); [| lia].
  destruct (Z.testbit _ _); cbn; lia.
Qed.

Lemma beField_head (buf : list byte) (n i : nat) :
  beField buf i (S n) = bitAt buf i * 2 ^ Z.of_nat n + beField buf (S i) n.
Proof.
  induction n as [| n IH].
  - cbn [beField]. rewrite Nat.add_0_r. cbn. lia.
  - change (beField buf i (S (S n)))
      with (2 * beField buf i (S n) + bitAt buf (i + S n)).
    rewrite IH. cbn [beField].
    replace (S i + n)%nat with (i + S n)%nat by lia.
    rewrite Nat2Z.inj_succ, Z.pow_succ_r by lia. lia.
Qed.

Lemma readFrom_beField (buf : list byte) (n i : nat) (acc : Z) :
  readFrom buf i n acc = acc * 2 ^ Z.of_nat n + beField buf i n.
Proof.
  revert i acc. induction n as [| n IH]; intros i acc.
  - cbn. lia.
  - cbn [readFrom]. rewrite IH, beField_head.
    rewrite lor_shiftl_add by (pose proof (bitAt_range buf i); lia).
    rewrite Nat2Z.inj_succ, Z.pow_succ_r by lia. lia.
Qed.

Lemma beField_range (buf : list byte) (n i : nat) :
  0 <= beField buf i n < 2 ^ Z.of_nat n.
Proof.
  induction n as [| n IH].
  - cbn. lia.
  - cbn [beField]. pose proof (bitAt_range buf (i + n)).
    rewrite Nat2Z.inj_succ, Z.pow_succ_r by lia. lia.
Qed.

Lemma GetBits_ok (n : nat) (bs : BitStream) :
  (position bs + n <= 8 * List.length (bits bs))%nat ->
  GetBits n bs
  = Some (beField (bits bs) (position bs) n,
          {| bits := bits bs; position := position bs + n |}).
Proof.
  intros H. unfold GetBits.
  destruct (Nat.leb_spec (position bs + n) (8 * List.length (bits bs))); [| lia].
  rewrite readFrom_beField. now rewrite Z.mul_0_l.
Qed.

Lemma SkipBits_ok (n : nat) (bs : BitStream) :
  (position bs + n <= 8 * List.length (bits bs))%nat ->
  SkipBits n bs = Some (tt, {| bits := bits bs; position := position bs + n |}).
Proof.
  intros H. unfold SkipBits.
  destruct (Nat.leb_spec (position bs + n) (8 * List.length (bits bs)));
    [reflexivity | lia].
Qed.

(** Underflow: the read fails and yields no moved cursor. *)
Lemma GetBits_underflow (n : nat) (bs : BitStream) :
  (8 * List.length (bits bs) < position bs + n)%nat -> GetBits n bs = None.
Proof.
  intros H. unfold GetBits.
  destruct (Nat.leb_spec (position bs + n) (8 * List.length (bits bs)));
    [lia | reflexivity].
Qed.

Lemma steady_ret {A : Type} (a : A) : steady (ret a).
Proof.
  intros bs a' bs' H. unfold ret in H. injection H as _ <-. split; [reflexivity | lia].
Qed.

Lemma steady_rbind {A B : Type} (m : Reader A) (k : A -> Reader B) :
  steady m -> (forall a, steady (k a)) -> steady (rbind m k).
Proof.
  intros Hm Hk bs b bs' H. unfold rbind in H.
  destruct (m bs) as [[a bs1] |] eqn:E; [| discriminate].
  destruct (Hm _ _ _ E) as [Hb1 Hp1].
  destruct (Hk a _ _ _ H) as [Hb2 Hp2].
  split; [congruence | lia].
Qed.

Lemma steady_GetBits (n : nat) : steady (GetBits n).
Proof.
  intros bs a bs' H. unfold GetBits in H.
  destruct (_ <=? _)%nat; [| discriminate].
  injection H as _ <-. cbn. split; [reflexivity | lia].
Qed.

Lemma steady_SkipBits (n : nat) : steady (SkipBits n).
Proof.
  intros bs a bs' H. unfold SkipBits in H.
  destruct (_ <=? _)%nat; [| discriminate].
  injection H as _ <-. cbn. split; [reflexivity | lia].
Qed.

Lemma steady_when (c : bool) (m : Reader unit) : steady m -> steady (when c m).
Proof.
  intros Hm. unfold when. destruct c; [exact Hm | apply steady_ret].
Qed.

Lemma steady_if {A : Type} (c : bool) (m1 m2 : Reader A) :
  steady m1 -> steady m2 -> steady (if c then m1 else m2).
Proof. destruct c; auto. Qed.

Create HintDb reader.
#[local] Hint Resolve steady_ret steady_GetBits steady_SkipBits steady_when
  steady_if : reader.
#[local] Hint Extern 2 (steady (rbind _ _)) =>
  apply steady_rbind; [| intros ?] : reader.

Lemma steady_headerPrefix : steady VP9.headerPrefix.
Proof.
  unfold VP9.headerPrefix. auto 40 with reader.
Qed.

(** ** Resolution of a VP9 frame *)

Lemma frameSize_run (bs : BitStream) :
  let p := position bs in
  let q := if bitAt (bits bs) p =? 1 then (p + 33)%nat else (p + 1)%nat in
  (q + 32 <= 8 * List.length (bits bs))%nat ->
  VP9.frameSize bs
  = Some ((beField (bits bs) q 16 + 1, beField (bits bs) (q + 16) 16 + 1),
          {| bits := bits bs; position := q + 32 |}).
Proof.
  destruct bs as [buf p]. cbn [bits position]. cbv zeta. intros Hq.
  assert (Hp : (p + 1 <= 8 * List.length buf)%nat)
    by (destruct (bitAt buf p =? 1); lia).
  unfold VP9.frameSize, rbind.
  rewrite GetBits_ok by exact Hp. cbn [bits position beField].
  rewrite Nat.add_0_r, Z.mul_0_r, Z.add_0_l.
  destruct (bitAt buf p =? 1); unfold when, ret.
  - rewrite SkipBits_ok by (cbn [bits position]; lia). cbn [bits position].
    rewrite SkipBits_ok by (cbn [bits position]; lia). cbn [bits position].
    rewrite GetBits_ok by (cbn [bits position]; lia). cbn [bits position].
    rewrite GetBits_ok by (cbn [bits position]; lia). cbn [bits position].
    replace (p + 1 + 16 + 16)%nat with (p + 33)%nat by lia.
    replace (p + 33 + 16 + 16)%nat with (p + 33 + 32)%nat by lia.
    reflexivity.
  - rewrite GetBits_ok by (cbn [bits position]; lia). cbn [bits position].
    rewrite GetBits_ok by (cbn [bits position]; lia). cbn [bits position].
    replace (p + 1 + 16 + 16)%nat with (p + 1 + 32)%nat by lia.
    reflexivity.
Qed.

(** A header cut one byte short: the last read underflows and the parser
    reports the error. *)
Example vp9_resolution_underflow :
  VP9.GetVP9Resloution [x82; x49; x83; x42; x40; x27; xf8; x16] = Err ParseError.
Proof. reflexivity. Qed.

(** C5. Once the header up to the colour configuration has been read,
    leaving the cursor at bit [p], [GetVP9Resloution] reads the
    render-and-frame-size-different bit at [p], skips 32 bits when it is
    set, and returns the next 16-bit field plus one as width and the
    16-bit field after it plus one as height. On the minimal profile-0
    key-frame header carrying 1279 and 719 it returns (1280, 720). *)
Theorem vp9_resolution_from_frame_size :
  (forall (frame : list byte) (profile : Z) (bs : BitStream),
     VP9.headerPrefix (NewBitStream frame) = Some (profile, bs) ->
     let p := position bs in
     let q := if bitAt frame p =? 1 then (p + 33)%nat else (p + 1)%nat in
     (q + 32 <= 8 * List.length frame)%nat ->
     VP9.GetVP9Resloution frame
     = Ok (beField frame q 16 + 1, beField frame (q + 16) 16 + 1)) /\
  (VP9.headerPrefix (NewBitStream minimalKeyFrameHeader)
   = Some (0, {| bits := minimalKeyFrameHeader; position := 36 |}) /\
   bitAt minimalKeyFrameHeader 36 = 0 /\
   beField minimalKeyFrameHeader 37 16 = 1279 /\
   beField minimalKeyFrameHeader 53 16 = 719 /\
   VP9.GetVP9Resloution minimalKeyFrameHeader = Ok (1280, 720)).
Proof.
  split.
  - intros frame profile bs Hpre p q Hq.
    destruct (steady_headerPrefix _ _ _ Hpre) as [Hbits _].
    cbn [NewBitStream bits] in Hbits.
    unfold VP9.GetVP9Resloution. unfold rbind at 1. rewrite Hpre.
    pose proof (frameSize_run bs) as Hrun. cbv zeta in Hrun.
    rewrite Hbits in Hrun. fold p in Hrun. fold q in Hrun.
    rewrite (Hrun Hq). reflexivity.
  - repeat split; vm_compute; reflexivity.
Qed.

Lemma vp9_resolution_from_frame_size_witness :
  VP9.GetVP9Resloution [xa2; x49; x83; x42; x5c; x00; x00; x00; x00; x9f; xfc; xb3; xfc]
  = Ok (beField [xa2; x49; x83; x42; x5c; x00; x00; x00; x00; x9f; xfc; xb3; xfc] 70 16 + 1,
        beField [xa2; x49; x83; x42; x5c; x00; x00; x00; x00; x9f; xfc; xb3; xfc] 86 16 + 1).
Proof.
  apply (proj1 vp9_resolution_from_frame_size
           [xa2; x49; x83; x42; x5c; x00; x00; x00; x00; x9f; xfc; xb3; xfc]
           2 {| bits := [xa2; x49; x83; x42; x5c; x00; x00; x00; x00; x9f; xfc; xb3; xfc];
                position := 37 |}).
  - vm_compute. reflexivity.
  - vm_compute. lia.
Defined.

(** ** The VP9 configuration record *)

(** C10. On every non-empty input [CreateVP9VpcCExtradata] returns an
    8-byte record and no error; the record is a function of byte 0 alone,
    so nothing else of the input is examined, and no key-frame test is
    made. On the empty input the unguarded read of byte 0 panics. *)
Theorem create_vp9_vpcc_domain (keyframe : list byte) :
  (keyframe <> [] ->
     exists vpcc,
       VP9.CreateVP9VpcCExtradata keyframe = Ok vpcc /\
       List.length vpcc = 8%nat /\
       VP9.CreateVP9VpcCExtradata (firstn 1 keyframe) = Ok vpcc) /\
  (keyframe = [] -> VP9.CreateVP9VpcCExtradata keyframe = Panic).
Proof.
  split.
  - intros Hne. destruct keyframe as [| b rest]; [contradiction |].
    unfold VP9.CreateVP9VpcCExtradata. cbn [index nth_error bind firstn].
    eexists. split; [reflexivity |]. split; reflexivity.
  - intros ->. reflexivity.
Qed.

Lemma create_vp9_vpcc_domain_witness :
  VP9.IsVP9KeyFrame [x07; xff] = false /\
  VP9.CreateVP9VpcCExtradata [x07; xff]
  = Ok [x00; x00; x80; x02; x02; x02; x00; x00] /\
  VP9.CreateVP9VpcCExtradata [] = Panic.
Proof.
  split; [reflexivity |]. split.
  - destruct (proj1 (create_vp9_vpcc_domain [x07; xff])) as (vpcc & H & _).
    + discriminate.
    + rewrite H. vm_compute in H. injection H as <-. reflexivity.
  - apply (proj2 (create_vp9_vpcc_domain [])). reflexivity.
Defined.

(** ** The depacketizer *)

Lemma len_nil_iff (s : list byte) : (len s <? 1) = true <-> s = [].
Proof.
  rewrite Z.ltb_lt. destruct s as [| b s].
  - unfold len; cbn; split; [reflexivity | lia].
  - rewrite len_cons. pose proof (len_nonneg s). split; [lia | discriminate].
Qed.

Lemma len_nonempty (s : list byte) : s <> [] -> (len s <? 1) = false.
Proof.
  intros H. destruct (len s <? 1) eqn:E; [| reflexivity].
  apply len_nil_iff in E. contradiction.
Qed.

(** The descriptor parser, by the shape of the payload. *)
Lemma descriptorLength_shape (payload : list byte) :
  descriptorLength payload
  = match payload with
    | [] => Panic
    | p0 :: tl =>
        if Z.land (u8 p0) 0x80 >? 0 then
          match tl with
          | [] => Err ShortExtendedHeader
          | p1 :: tl' =>
              let l := if Z.land (u8 p1) 0x40 >? 0 then 1 else 0 in
              let tk := if (Z.land (u8 p1) 0x20 >? 0) || (Z.land (u8 p1) 0x10 >? 0)
                        then 1 else 0 in
              if Z.land (u8 p1) 0x80 >? 0 then
                match tl' with
                | [] => Err ShortPictureId
                | p2 :: _ =>
                    Ok (2 + (if Z.land (u8 p2) 0x80 >? 0 then 2 else 1) + l + tk)
                end
              else Ok (2 + l + tk)
          end
        else Ok 1
    end.
Proof.
  destruct payload as [| p0 tl]; [reflexivity |].
  unfold descriptorLength. cbn [index nth_error bind].
  destruct (Z.land (u8 p0) 128 >? 0); [| reflexivity].
  destruct tl as [| p1 tl']; [reflexivity |].
  assert (H2 : (len (p0 :: p1 :: tl') <? 2) = false).
  { apply Z.ltb_ge. rewrite !len_cons. pose proof (len_nonneg tl'). lia. }
  rewrite H2. cbn [index nth_error bind]. cbv zeta.
  destruct (Z.land (u8 p1) 128 >? 0).
  - destruct tl' as [| p2 tl''].
    + reflexivity.
    + assert (H3 : (len (p0 :: p1 :: p2 :: tl'') <? 1 + 1 + 1) = false).
      { apply Z.ltb_ge. rewrite !len_cons. pose proof (len_nonneg tl''). lia. }
      rewrite H3. change (Z.to_nat (1 + 1)) with 2%nat.
      cbn [index nth_error bind].
      destruct (Z.land (u8 p2) 128 >? 0), (Z.land (u8 p1) 64 >? 0),
        ((Z.land (u8 p1) 32 >? 0) || (Z.land (u8 p1) 16 >? 0)); reflexivity.
  - cbn [bind].
    destruct (Z.land (u8 p1) 64 >? 0),
      ((Z.land (u8 p1) 32 >? 0) || (Z.land (u8 p1) 16 >? 0)); reflexivity.
Qed.

Lemma descriptorLength_bounds (payload : list byte) (n : Z) :
  descriptorLength payload = Ok n -> 1 <= n <= 6.
Proof.
  rewrite descriptorLength_shape.
  destruct payload as [| p0 [| p1 [| p2 tl]]]; try discriminate; cbv zeta;
    repeat match goal with
           | |- context [if ?c then _ else _] => destruct c
           end;
    intros H; try discriminate; injection H as <-; lia.
Qed.

Lemma descriptorLength_no_panic (payload : list byte) :
  payload <> [] -> descriptorLength payload <> Panic.
Proof.
  rewrite descriptorLength_shape.
  destruct payload as [| p0 [| p1 [| p2 tl]]]; [contradiction | | |]; intros _;
    cbv zeta;
    repeat match goal with
           | |- context [if ?c then _ else _] => destruct c
           end;
    discriminate.
Qed.

Lemma descriptorLength_errors (payload : list byte) (e : error) :
  descriptorLength payload = Err e ->
  (e = ShortExtendedHeader /\ len payload < 2) \/
  (e = ShortPictureId /\ len payload < 3).
Proof.
  rewrite descriptorLength_shape.
  destruct payload as [| p0 [| p1 [| p2 tl]]]; try discriminate; cbv zeta;
    repeat match goal with
           | |- context [if ?c then _ else _] => destruct c
           end;
    intros H; try discriminate; injection H as <-;
    [left | right]; (split; [reflexivity | unfold len; cbn; lia]).
Qed.

Lemma storePayload_ok (u : VP8UnPacker) (payload : list byte) (n : Z) :
  0 <= n ->
  storePayload u payload n
  = Ok {| onRtp := onRtp u; onFrame := onFrame u;
          frameBuffer := frameBuffer u ++ kept payload n;
          timestamp := timestamp u; lastSequence := lastSequence u;
          lost := (len payload <? n) || lost u;
          building := building u |}.
Proof.
  intros Hn. unfold storePayload, kept.
  destruct (Z.ltb_spec (len payload) n) as [Hlt | Hge].
  - now rewrite app_nil_r.
  - rewrite slice_from_ok by (rewrite Z2Nat.id; lia). reflexivity.
Qed.

Lemma trackGroup_state (u : VP8UnPacker) (pkg : RtpPacket) :
  fst (trackGroup u pkg)
  = {| onRtp := onRtp u; onFrame := onFrame u;
       frameBuffer := carried u pkg;
       timestamp := Timestamp (Header pkg);
       lastSequence := SequenceNumber (Header pkg);
       lost := if startsGroup u pkg then false
               else negb (wrap16 (lastSequence u + 1) =? SequenceNumber (Header pkg))
                    || lost u;
       building := true |}.
Proof.
  unfold trackGroup, carried, startsGroup.
  destruct (building u) eqn:Eb; cbn [negb orb].
  - destruct (Z.eqb_spec (Timestamp (Header pkg)) (timestamp u)) as [Et | Et];
      cbn [negb fst]; [| reflexivity].
    rewrite Et.
    destruct (wrap16 (lastSequence u + 1) =? SequenceNumber (Header pkg));
      reflexivity.
  - reflexivity.
Qed.

Lemma trackGroup_calls (u : VP8UnPacker) (pkg : RtpPacket) :
  snd (trackGroup u pkg)
  = if startsGroup u pkg && building u && (len (frameBuffer u) >? 0)
    then invoke (onFrame u) (CallOnFrame (frameBuffer u) (timestamp u) true)
    else [].
Proof.
  unfold trackGroup, startsGroup.
  destruct (negb (building u) || negb (Timestamp (Header pkg) =? timestamp u));
    reflexivity.
Qed.

Lemma UnPack_err (u : VP8UnPacker) (pkg : RtpPacket) (e : error) :
  Payload pkg <> [] -> descriptorLength (Payload pkg) = Err e ->
  UnPack u (inr pkg) = (fst (trackGroup u pkg), callsBefore u pkg, Err e).
Proof.
  intros Hne Hd. unfold UnPack, callsBefore.
  rewrite len_nonempty by exact Hne.
  destruct (trackGroup u pkg) as [u1 flushed]. rewrite Hd. reflexivity.
Qed.

Lemma UnPack_ok (u : VP8UnPacker) (pkg : RtpPacket) (n : Z) :
  Payload pkg <> [] -> descriptorLength (Payload pkg) = Ok n ->
  UnPack u (inr pkg)
  = let l := (len (Payload pkg) <? n) || lostAfterTracking u pkg in
    let data := carried u pkg ++ kept (Payload pkg) n in
    if Marker (Header pkg) =? 1 then
      ({| onRtp := onRtp u; onFrame := onFrame u; frameBuffer := [];
          timestamp := Timestamp (Header pkg);
          lastSequence := SequenceNumber (Header pkg);
          lost := l; building := false |},
       callsBefore u pkg
       ++ invoke (onFrame u) (CallOnFrame data (Timestamp (Header pkg)) l),
       Ok tt)
    else
      ({| onRtp := onRtp u; onFrame := onFrame u; frameBuffer := data;
          timestamp := Timestamp (Header pkg);
          lastSequence := SequenceNumber (Header pkg);
          lost := l; building := true |},
       callsBefore u pkg, Ok tt).
Proof.
  intros Hne Hd. pose proof (descriptorLength_bounds _ _ Hd) as Hn.
  unfold UnPack, callsBefore.
  rewrite len_nonempty by exact Hne.
  pose proof (trackGroup_state u pkg) as Hst.
  destruct (trackGroup u pkg) as [u1 flushed]. cbn [fst snd] in *.
  rewrite Hd, storePayload_ok by lia. subst u1.
  cbn [onRtp onFrame frameBuffer timestamp lastSequence lost building].
  unfold closeFrame, lostAfterTracking. cbv zeta.
  destruct (Marker (Header pkg) =? 1);
    cbn [onRtp onFrame frameBuffer timestamp lastSequence lost building].
  - now rewrite app_assoc.
  - now rewrite !app_nil_r.
Qed.

Lemma UnPack_rejected (u : VP8UnPacker) (decoded : error + RtpPacket) :
  match decoded with
  | inl _ => True
  | inr pkg => Payload pkg = []
  end ->
  exists e, UnPack u decoded = (u, [], Err e).
Proof.
  destruct decoded as [err | pkg]; intros H.
  - now exists err.
  - exists EmptyPayload. unfold UnPack. rewrite H. reflexivity.
Qed.

Lemma startsGroup_continuing (u : VP8UnPacker) (pkg : RtpPacket) :
  building u = true -> Timestamp (Header pkg) = timestamp u ->
  startsGroup u pkg = false.
Proof.
  intros Hb Ht. unfold startsGroup. rewrite Hb, Ht, Z.eqb_refl. reflexivity.
Qed.

Lemma startsGroup_new_timestamp (u : VP8UnPacker) (pkg : RtpPacket) :
  Timestamp (Header pkg) <> timestamp u -> startsGroup u pkg = true.
Proof.
  intros Ht. unfold startsGroup.
  destruct (Z.eqb_spec (Timestamp (Header pkg)) (timestamp u)); [contradiction |].
  apply orb_true_r.
Qed.

Lemma len_positive (s : list byte) : s <> [] -> (len s >? 0) = true.
Proof.
  intros H. destruct s as [| b s]; [contradiction |].
  rewrite len_cons. pose proof (len_nonneg s). apply Z.gtb_lt. lia.
Qed.

(** C9. The buffer is empty whenever no frame is being built: this holds
    of a new unpacker, every call of [UnPack] preserves it whatever the
    packet and whatever the call returns, and so it holds after any
    sequence of calls. *)
Theorem buffer_invariant_preserved :
  buffer_invariant NewVP8UnPacker /\
  (forall (u : VP8UnPacker) (decoded : error + RtpPacket),
     buffer_invariant u -> buffer_invariant (fst (fst (UnPack u decoded)))) /\
  (forall inputs : list (error + RtpPacket),
     buffer_invariant
       (fold_left (fun u d => fst (fst (UnPack u d))) inputs NewVP8UnPacker)).
Proof.
  assert (Hinit : buffer_invariant NewVP8UnPacker) by (intros _; reflexivity).
  assert (Hstep : forall u decoded,
             buffer_invariant u -> buffer_invariant (fst (fst (UnPack u decoded)))).
  { intros u decoded Hinv.
    destruct decoded as [err | pkg]; [exact Hinv |].
    destruct (Payload pkg) as [| b tl] eqn:Ep.
    - destruct (UnPack_rejected u (inr pkg) Ep) as [e ->]. exact Hinv.
    - assert (Hne : Payload pkg <> []) by (rewrite Ep; discriminate).
      destruct (descriptorLength (Payload pkg)) as [n | e |] eqn:Ed.
      + rewrite (UnPack_ok u pkg n Hne Ed). cbv zeta.
        destruct (Marker (Header pkg) =? 1); cbn [fst]; intros Hb.
        * reflexivity.
        * discriminate Hb.
      + rewrite (UnPack_err u pkg e Hne Ed). cbn [fst].
        rewrite trackGroup_state. intros Hb. discriminate Hb.
      + exfalso. exact (descriptorLength_no_panic _ Hne Ed). }
  split; [exact Hinit |]. split; [exact Hstep |].
  intros inputs. generalize NewVP8UnPacker Hinit.
  induction inputs as [| d inputs IH]; intros u Hu; cbn [fold_left].
  - exact Hu.
  - apply IH, Hstep, Hu.
Qed.

Lemma buffer_invariant_preserved_witness :
  buffer_invariant
    (fst (fst (UnPack {| onRtp := true; onFrame := true; frameBuffer := [xaa];
                         timestamp := 1000; lastSequence := 10; lost := false;
                         building := true |}
                      (inr (packet 0 11 2000 [x80]))))).
Proof.
  apply (proj1 (proj2 buffer_invariant_preserved)).
  intros H. discriminate H.
Defined.

(** C4. A packet with a non-empty payload whose timestamp differs from the
    current one, arriving while a frame is being built and the buffer is
    non-empty, makes [UnPack] hand the previous buffer to the frame
    callback with the previous timestamp and [lost = true] (right after the
    packet callback, before anything else), and start the new group from
    an empty buffer: what the call then leaves in the buffer, or emits on
    the marker, is made of bytes of this packet only. *)
Theorem timestamp_change_flushes_previous (u : VP8UnPacker) (pkg : RtpPacket) :
  building u = true -> frameBuffer u <> [] ->
  Timestamp (Header pkg) <> timestamp u ->
  Payload pkg <> [] ->
  exists u' rest r,
    UnPack u (inr pkg)
    = (u', invoke (onRtp u) (CallOnRtp pkg)
           ++ invoke (onFrame u) (CallOnFrame (frameBuffer u) (timestamp u) true)
           ++ rest, r) /\
    timestamp u' = Timestamp (Header pkg) /\
    ((rest = [] /\ frameBuffer u' = stored (Payload pkg)) \/
     (exists l,
        rest = invoke (onFrame u)
                 (CallOnFrame (stored (Payload pkg)) (Timestamp (Header pkg)) l)
        /\ frameBuffer u' = [])).
Proof.
  intros Hb Hbuf Hts Hne.
  pose proof (startsGroup_new_timestamp u pkg Hts) as Hsg.
  assert (Hcalls : callsBefore u pkg
                   = invoke (onRtp u) (CallOnRtp pkg)
                     ++ invoke (onFrame u)
                          (CallOnFrame (frameBuffer u) (timestamp u) true)).
  { unfold callsBefore. rewrite trackGroup_calls, Hsg, Hb, len_positive by exact Hbuf.
    reflexivity. }
  assert (Hcar : carried u pkg = []) by (unfold carried; now rewrite Hsg).
  unfold stored.
  destruct (descriptorLength (Payload pkg)) as [n | e |] eqn:Ed.
  - rewrite (UnPack_ok u pkg n Hne Ed). cbv zeta. rewrite Hcalls, Hcar.
    cbn [app].
    destruct (Marker (Header pkg) =? 1).
    + eexists _, _, _. split; [rewrite <- app_assoc; reflexivity |].
      split; [reflexivity |]. right. eexists. split; reflexivity.
    + eexists _, [], _. split; [now rewrite app_nil_r |].
      split; [reflexivity |]. left. split; reflexivity.
  - rewrite (UnPack_err u pkg e Hne Ed), Hcalls, trackGroup_state, Hcar.
    eexists _, [], _. split; [now rewrite app_nil_r |].
    split; [reflexivity |]. left. split; reflexivity.
  - exfalso. exact (descriptorLength_no_panic _ Hne Ed).
Qed.

Lemma timestamp_change_flushes_previous_witness :
  exists u' rest r,
    UnPack {| onRtp := true; onFrame := true; frameBuffer := [xaa];
              timestamp := 1000; lastSequence := 10; lost := false;
              building := true |}
           (inr (packet 0 11 2000 [x00; xbb]))
    = (u', [CallOnRtp (packet 0 11 2000 [x00; xbb])]
           ++ [CallOnFrame [xaa] 1000 true] ++ rest, r) /\
    timestamp u' = 2000 /\
    ((rest = [] /\ frameBuffer u' = [xbb]) \/
     (exists l, rest = [CallOnFrame [xbb] 2000 l] /\ frameBuffer u' = [])).
Proof.
  apply (timestamp_change_flushes_previous
           {| onRtp := true; onFrame := true; frameBuffer := [xaa];
              timestamp := 1000; lastSequence := 10; lost := false;
              building := true |}
           (packet 0 11 2000 [x00; xbb])).
  - reflexivity.
  - discriminate.
  - cbn. lia.
  - discriminate.
Defined.

(** C8. For a packet with a non-empty payload that continues the current
    group (a frame is being built and the timestamps agree), a sequence
    number other than [lastSequence + 1] modulo 2^16 sets the group's lost
    flag, and the frame emitted on the marker carries [lost = true]; a
    sequence number equal to it leaves the flag as it was when the payload
    holds its whole descriptor. Two packets of one timestamp numbered 10
    and 12, the second with the marker, emit a frame with [lost = true];
    numbered 65535 and 0 they emit it with [lost = false]. *)
Theorem sequence_gap_marks_lost :
  (forall (u : VP8UnPacker) (pkg : RtpPacket),
     building u = true -> Timestamp (Header pkg) = timestamp u ->
     Payload pkg <> [] ->
     SequenceNumber (Header pkg) <> wrap16 (lastSequence u + 1) ->
     lost (fst (fst (UnPack u (inr pkg)))) = true /\
     (Marker (Header pkg) = 1 -> onFrame u = true ->
      snd (UnPack u (inr pkg)) = Ok tt ->
      exists before data,
        snd (fst (UnPack u (inr pkg)))
        = before ++ [CallOnFrame data (timestamp u) true])) /\
  (forall (u : VP8UnPacker) (pkg : RtpPacket) (n : Z),
     building u = true -> Timestamp (Header pkg) = timestamp u ->
     Payload pkg <> [] ->
     SequenceNumber (Header pkg) = wrap16 (lastSequence u + 1) ->
     descriptorLength (Payload pkg) = Ok n -> n <= len (Payload pkg) ->
     lost (fst (fst (UnPack u (inr pkg)))) = lost u) /\
  snd (UnPackAll listening [packet 0 10 1000 [x00; xaa]; packet 1 12 1000 [x00; xbb]])
  = [CallOnRtp (packet 0 10 1000 [x00; xaa]);
     CallOnRtp (packet 1 12 1000 [x00; xbb]);
     CallOnFrame [xaa; xbb] 1000 true] /\
  snd (UnPackAll listening [packet 0 65535 1000 [x00; xaa]; packet 1 0 1000 [x00; xbb]])
  = [CallOnRtp (packet 0 65535 1000 [x00; xaa]);
     CallOnRtp (packet 1 0 1000 [x00; xbb]);
     CallOnFrame [xaa; xbb] 1000 false].
Proof.
  split; [| split; [| split; reflexivity]].
  - intros u pkg Hb Hts Hne Hseq.
    pose proof (startsGroup_continuing u pkg Hb Hts) as Hsg.
    assert (Hl : lostAfterTracking u pkg = true).
    { unfold lostAfterTracking. rewrite Hsg.
      destruct (Z.eqb_spec (wrap16 (lastSequence u + 1)) (SequenceNumber (Header pkg)))
        as [E | E]; [symmetry in E; contradiction | reflexivity]. }
    destruct (descriptorLength (Payload pkg)) as [n | e |] eqn:Ed.
    + rewrite (UnPack_ok u pkg n Hne Ed). cbv zeta. rewrite Hl, orb_true_r.
      split.
      * destruct (Marker (Header pkg) =? 1); reflexivity.
      * intros Hm Hcb _. rewrite Hm, Hcb, Hts. cbn [Z.eqb Pos.eqb snd fst invoke].
        eexists _, _. reflexivity.
    + rewrite (UnPack_err u pkg e Hne Ed). cbn [fst snd].
      rewrite trackGroup_state. cbn [lost]. fold (lostAfterTracking u pkg).
      split; [exact Hl |]. intros _ _ H. discriminate H.
    + exfalso. exact (descriptorLength_no_panic _ Hne Ed).
  - intros u pkg n Hb Hts Hne Hseq Hd Hlen.
    rewrite (UnPack_ok u pkg n Hne Hd). cbv zeta.
    unfold lostAfterTracking.
    rewrite (startsGroup_continuing u pkg Hb Hts), Hseq, Z.eqb_refl.
    destruct (Z.ltb_spec (len (Payload pkg)) n); [lia |].
    destruct (Marker (Header pkg) =? 1); reflexivity.
Qed.

Lemma sequence_gap_marks_lost_witness :
  lost (fst (fst (UnPack {| onRtp := true; onFrame := true; frameBuffer := [xaa];
                            timestamp := 1000; lastSequence := 10; lost := false;
                            building := true |}
                         (inr (packet 1 12 1000 [x00; xbb]))))) = true /\
  lost (fst (fst (UnPack {| onRtp := true; onFrame := true; frameBuffer := [xaa];
                            timestamp := 1000; lastSequence := 65535; lost := false;
                            building := true |}
                         (inr (packet 1 0 1000 [x00; xbb]))))) = false.
Proof.
  split.
  - apply (proj1 sequence_gap_marks_lost
             {| onRtp := true; onFrame := true; frameBuffer := [xaa];
                timestamp := 1000; lastSequence := 10; lost := false;
                building := true |}
             (packet 1 12 1000 [x00; xbb])).
    + reflexivity.
    + reflexivity.
    + discriminate.
    + vm_compute. discriminate.
  - apply (proj1 (proj2 sequence_gap_marks_lost)
             {| onRtp := true; onFrame := true; frameBuffer := [xaa];
                timestamp := 1000; lastSequence := 65535; lost := false;
                building := true |}
             (packet 1 0 1000 [x00; xbb]) 1).
    + reflexivity.
    + reflexivity.
    + discriminate.
    + reflexivity.
    + reflexivity.
    + vm_compute. discriminate.
Defined.

Lemma descriptorLength_short_ext (payload : list byte) :
  payload <> [] -> Z.land (byteAt payload 0) 0x80 > 0 -> len payload < 2 ->
  descriptorLength payload = Err ShortExtendedHeader.
Proof.
  intros Hne Hx Hlen. rewrite descriptorLength_shape.
  destruct payload as [| p0 [| p1 tl]]; [contradiction | |].
  - unfold byteAt in Hx. cbn [nth] in Hx.
    destruct (Z.gtb_spec (Z.land (u8 p0) 128) 0); [reflexivity | lia].
  - rewrite !len_cons in Hlen. pose proof (len_nonneg tl). lia.
Qed.

Lemma descriptorLength_short_pid (payload : list byte) :
  Z.land (byteAt payload 0) 0x80 > 0 -> Z.land (byteAt payload 1) 0x80 > 0 ->
  len payload = 2 ->
  descriptorLength payload = Err ShortPictureId.
Proof.
  intros Hx Hi Hlen. rewrite descriptorLength_shape.
  destruct payload as [| p0 [| p1 [| p2 tl]]].
  - unfold len in Hlen. cbn in Hlen. lia.
  - unfold len in Hlen. cbn in Hlen. lia.
  - unfold byteAt in Hx, Hi. cbn [nth] in Hx, Hi. cbv zeta.
    destruct (Z.gtb_spec (Z.land (u8 p0) 128) 0); [| lia].
    destruct (Z.gtb_spec (Z.land (u8 p1) 128) 0); [reflexivity | lia].
  - rewrite !len_cons in Hlen. pose proof (len_nonneg tl). lia.
Qed.

(** C1, as the code has it. A non-empty payload that holds every
    descriptor byte the parser reads, yet is shorter than the descriptor
    length computed from them, is absorbed: [UnPack] returns nil, sets the
    lost flag and adds no byte of the packet to the buffer (on the marker
    the frame emitted is the group as it stood). A payload too short for
    the bytes the parser must read is rejected with a hard error: the
    extension byte missing gives the short-extended-header error, the byte
    after it missing when the picture-id bit is set gives the
    short-picture-id error. *)
Theorem truncated_descriptor_handling (u : VP8UnPacker) (pkg : RtpPacket) :
  Payload pkg <> [] ->
  (forall n,
     descriptorLength (Payload pkg) = Ok n -> len (Payload pkg) < n ->
     exists u' calls,
       UnPack u (inr pkg) = (u', calls, Ok tt) /\
       lost u' = true /\
       (Marker (Header pkg) <> 1 ->
          frameBuffer u' = carried u pkg /\ calls = callsBefore u pkg) /\
       (Marker (Header pkg) = 1 ->
          frameBuffer u' = [] /\
          calls = callsBefore u pkg
                  ++ invoke (onFrame u)
                       (CallOnFrame (carried u pkg) (Timestamp (Header pkg)) true))) /\
  (forall e,
     descriptorLength (Payload pkg) = Err e ->
     snd (UnPack u (inr pkg)) = Err e /\
     ((e = ShortExtendedHeader /\ len (Payload pkg) < 2) \/
      (e = ShortPictureId /\ len (Payload pkg) < 3))) /\
  (Z.land (byteAt (Payload pkg) 0) 0x80 > 0 -> len (Payload pkg) < 2 ->
     snd (UnPack u (inr pkg)) = Err ShortExtendedHeader) /\
  (Z.land (byteAt (Payload pkg) 0) 0x80 > 0 ->
   Z.land (byteAt (Payload pkg) 1) 0x80 > 0 -> len (Payload pkg) = 2 ->
     snd (UnPack u (inr pkg)) = Err ShortPictureId).
Proof.
  intros Hne. split; [| split; [| split]].
  - intros n Hd Hlen. rewrite (UnPack_ok u pkg n Hne Hd). cbv zeta.
    assert (Hk : kept (Payload pkg) n = []).
    { unfold kept. destruct (Z.ltb_spec (len (Payload pkg)) n); [reflexivity | lia]. }
    assert (Hlt : (len (Payload pkg) <? n) = true) by (apply Z.ltb_lt; exact Hlen).
    rewrite Hk, Hlt, app_nil_r. cbn [orb].
    destruct (Z.eqb_spec (Marker (Header pkg)) 1) as [Hm | Hm].
    + eexists _, _. split; [reflexivity |]. split; [reflexivity |].
      split; [intros Hc; contradiction |]. intros _. split; reflexivity.
    + eexists _, _. split; [reflexivity |]. split; [reflexivity |].
      split; [intros _; split; reflexivity |]. intros Hc. contradiction.
  - intros e Hd. rewrite (UnPack_err u pkg e Hne Hd).
    split; [reflexivity |]. exact (descriptorLength_errors _ _ Hd).
  - intros Hx Hlen.
    rewrite (UnPack_err u pkg _ Hne (descriptorLength_short_ext _ Hne Hx Hlen)).
    reflexivity.
  - intros Hx Hi Hlen.
    rewrite (UnPack_err u pkg _ Hne (descriptorLength_short_pid _ Hx Hi Hlen)).
    reflexivity.
Qed.

Lemma truncated_descriptor_handling_witness :
  (exists u' calls,
     UnPack listening (inr (packet 0 7 1000 [x80; x40])) = (u', calls, Ok tt) /\
     lost u' = true /\ frameBuffer u' = []) /\
  snd (UnPack listening (inr (packet 0 7 1000 [x80]))) = Err ShortExtendedHeader /\
  snd (UnPack listening (inr (packet 0 7 1000 [x80; x80]))) = Err ShortPictureId.
Proof.
  split; [| split].
  - destruct (proj1 (truncated_descriptor_handling listening
                       (packet 0 7 1000 [x80; x40]) ltac:(discriminate)) 3)
      as (u' & calls & Hrun & Hlost & Hkeep & _).
    + reflexivity.
    + unfold len; cbn; lia.
    + exists u', calls. split; [exact Hrun |]. split; [exact Hlost |].
      apply Hkeep. cbn. lia.
  - apply (proj1 (proj2 (proj2 (truncated_descriptor_handling listening
                                  (packet 0 7 1000 [x80]) ltac:(discriminate))))).
    + vm_compute. reflexivity.
    + unfold len; cbn; lia.
  - apply (proj2 (proj2 (proj2 (truncated_descriptor_handling listening
                                  (packet 0 7 1000 [x80; x80]) ltac:(discriminate))))).
    + vm_compute. reflexivity.
    + vm_compute. reflexivity.
    + reflexivity.
Defined.

(** C1 as stated fails: a one-byte payload with the extension bit set is
    shorter than any descriptor length it can have, and [UnPack] returns a
    hard error on it without setting the lost flag. *)
Lemma truncated_descriptor_counterexample :
  len [x80] < 2 /\
  UnPack listening (inr (packet 0 7 1000 [x80]))
  = ({| onRtp := true; onFrame := true; frameBuffer := [];
        timestamp := 1000; lastSequence := 7; lost := false; building := true |},
     [CallOnRtp (packet 0 7 1000 [x80])],
     Err ShortExtendedHeader).
Proof.
  split; [unfold len; cbn; lia | reflexivity].
Qed.

(** C3, as the code has it. When [UnPack] returns an error, either the
    packet was rejected before anything was touched (it could not be
    decoded, or its payload is empty): the unpacker is unchanged and no
    callback has run; or the error is one of the two descriptor length
    errors, and the group tracking of lines 236-253 has already taken
    effect: a frame is being built, timestamp and last sequence number are
    the packet's, the buffer holds the group without any byte of this
    packet, and the callbacks of that step have run. *)
Theorem error_state_effect
    (u u' : VP8UnPacker) (decoded : error + RtpPacket) (calls : list call) (e : error) :
  UnPack u decoded = (u', calls, Err e) ->
  (match decoded with
   | inl err => e = err
   | inr pkg => Payload pkg = [] /\ e = EmptyPayload
   end /\ u' = u /\ calls = []) \/
  (exists pkg,
     decoded = inr pkg /\ Payload pkg <> [] /\
     (e = ShortExtendedHeader \/ e = ShortPictureId) /\
     u' = {| onRtp := onRtp u; onFrame := onFrame u;
             frameBuffer := carried u pkg;
             timestamp := Timestamp (Header pkg);
             lastSequence := SequenceNumber (Header pkg);
             lost := lostAfterTracking u pkg;
             building := true |} /\
     calls = callsBefore u pkg).
Proof.
  intros H. destruct decoded as [err | pkg].
  - left. cbn in H. injection H as <- <- <-. auto.
  - destruct (Payload pkg) as [| b tl] eqn:Ep.
    + left. unfold UnPack in H. rewrite Ep in H. cbn in H.
      injection H as <- <- <-. auto.
    + right. exists pkg.
      assert (Hne : Payload pkg <> []) by (rewrite Ep; discriminate).
      destruct (descriptorLength (Payload pkg)) as [n | e0 |] eqn:Ed.
      * rewrite (UnPack_ok u pkg n Hne Ed) in H. cbv zeta in H.
        destruct (Marker (Header pkg) =? 1); discriminate H.
      * rewrite (UnPack_err u pkg e0 Hne Ed), trackGroup_state in H.
        injection H as <- <- <-.
        split; [reflexivity |]. split; [exact Hne |].
        split; [| split; reflexivity].
        destruct (descriptorLength_errors _ _ Ed) as [[-> _] | [-> _]]; auto.
      * exfalso. exact (descriptorLength_no_panic _ Hne Ed).
Qed.

Lemma error_state_effect_witness :
  fst (fst (UnPack {| onRtp := true; onFrame := true; frameBuffer := [xaa];
                      timestamp := 1000; lastSequence := 10; lost := false;
                      building := true |}
                   (inr (packet 0 11 1000 []))))
  = {| onRtp := true; onFrame := true; frameBuffer := [xaa];
       timestamp := 1000; lastSequence := 10; lost := false; building := true |}.
Proof.
  destruct (error_state_effect
              {| onRtp := true; onFrame := true; frameBuffer := [xaa];
                 timestamp := 1000; lastSequence := 10; lost := false;
                 building := true |}
              {| onRtp := true; onFrame := true; frameBuffer := [xaa];
                 timestamp := 1000; lastSequence := 10; lost := false;
                 building := true |}
              (inr (packet 0 11 1000 [])) [] EmptyPayload eq_refl)
    as [(_ & Hu & _) | (pkg & Hd & Hne & _)].
  - reflexivity.
  - injection Hd as <-. exfalso. apply Hne. reflexivity.
Defined.

(** C3 as stated fails: a packet of a new timestamp whose payload stops
    before the picture id makes [UnPack] return an error after the
    previous buffer has been emitted and cleared and the timestamp and
    sequence number replaced. *)
Lemma error_state_counterexample :
  UnPack {| onRtp := true; onFrame := true; frameBuffer := [xaa];
            timestamp := 1000; lastSequence := 10; lost := false;
            building := true |}
         (inr (packet 0 11 2000 [x80; x80]))
  = ({| onRtp := true; onFrame := true; frameBuffer := [];
        timestamp := 2000; lastSequence := 11; lost := false; building := true |},
     [CallOnRtp (packet 0 11 2000 [x80; x80]); CallOnFrame [xaa] 1000 true],
     Err ShortPictureId) /\
  fst (fst (UnPack {| onRtp := true; onFrame := true; frameBuffer := [xaa];
                      timestamp := 1000; lastSequence := 10; lost := false;
                      building := true |}
                   (inr (packet 0 11 2000 [x80; x80]))))
  <> {| onRtp := true; onFrame := true; frameBuffer := [xaa];
        timestamp := 1000; lastSequence := 10; lost := false; building := true |}.
Proof.
  split; [reflexivity | discriminate].
Qed.

(** * Further properties of the VP8 parser *)

Lemma u8_toByte (z : Z) : 0 <= z < 256 -> u8 (toByte z) = z.
Proof.
  intros Hz. unfold toByte, wrap8. rewrite Z.mod_small by lia.
  destruct (Byte.of_N (Z.to_N z)) as [b |] eqn:E.
  - apply Byte.to_of_N in E. unfold u8. rewrite E. lia.
  - apply Byte.of_N_None_iff in E. lia.
Qed.

Lemma tagOf_cons (b0 b1 b2 : byte) (rest : list byte) :
  tagOf (b0 :: b1 :: b2 :: rest) = tag24 b0 b1 b2.
Proof. reflexivity. Qed.

Lemma tag_low_bits (b0 b1 b2 : byte) (lo n : Z) :
  0 <= lo -> 0 <= n -> lo + n <= 8 ->
  bitfield (tag24 b0 b1 b2) lo n = bitfield (u8 b0) lo n.
Proof.
  intros Hlo Hn Hsum. apply Z.bits_inj'. intros i Hi.
  rewrite !bitfield_testbit by lia.
  destruct (Z.ltb_spec i n) as [Hlt | Hge]; [| reflexivity]. cbn [andb].
  unfold tag24.
  replace (u8 b0 + 2 ^ 8 * u8 b1 + 2 ^ 16 * u8 b2)
    with (u8 b0 + (u8 b1 + 2 ^ 8 * u8 b2) * 2 ^ 8) by lia.
  rewrite <- (Z.mod_pow2_bits_low _ 8 (i + lo)) by lia.
  rewrite Z.mod_add by lia.
  now rewrite Z.mod_pow2_bits_low by lia.
Qed.

Lemma bitfield_bit (x lo : Z) :
  0 <= lo -> bitfield x lo 1 = Z.b2z (Z.testbit x lo).
Proof.
  intros Hlo. unfold bitfield. now rewrite Z.testbit_spec' by assumption.
Qed.

Lemma DecodeFrameTag_ok_len (frame : list byte) (tag : VP8FrameTag) :
  VP8.DecodeFrameTag frame = Ok tag -> 3 <= len frame.
Proof.
  intros H. destruct (Z.ltb_spec (len frame) 3) as [Hlt | Hge]; [| exact Hge].
  rewrite DecodeFrameTag_short in H by assumption. discriminate.
Qed.

(** X1. A frame is a VP8 key frame exactly when it has at least 3 bytes
    and the least significant bit of byte 0 is clear; no other byte is
    looked at. The two copies of the test agree. *)
Theorem vp8_key_frame_test (frame : list byte) :
  (VP8.IsVP8KeyFrame frame = true <->
   3 <= len frame /\ Z.testbit (byteAt frame 0) 0 = false) /\
  Part000.IsKeyFrame frame = VP8.IsVP8KeyFrame frame.
Proof.
  split; [| reflexivity].
  unfold VP8.IsVP8KeyFrame.
  destruct (Z.ltb_spec (len frame) 3) as [Hlt | Hge].
  - rewrite DecodeFrameTag_short by assumption. split; [discriminate | lia].
  - destruct (len_ge_3 frame Hge) as (b0 & b1 & b2 & rest & ->).
    rewrite DecodeFrameTag_cons. cbn [FrameType].
    rewrite tag_low_bits, bitfield_bit by lia.
    unfold byteAt. cbn [nth].
    destruct (Z.testbit (u8 b0) 0); cbn; split; intros H;
      try discriminate; try reflexivity; try (split; [lia | reflexivity]).
    destruct H as [_ H]. discriminate H.
Qed.

Lemma vp8_key_frame_test_witness :
  VP8.IsVP8KeyFrame [x10; x02; x00] = true /\
  (3 <= len [x11; x02; x00] /\ Z.testbit (byteAt [x11; x02; x00] 0) 0 = false ->
   False).
Proof.
  split.
  - apply (proj1 (vp8_key_frame_test [x10; x02; x00])).
    split; [unfold len; cbn; lia | reflexivity].
  - intros H.
    apply (proj1 (vp8_key_frame_test [x11; x02; x00])) in H. discriminate H.
Defined.

(** X2. Decoding the frame tag loses nothing: the four fields put back in
    their places give the 24-bit tag again, each within its width, so two
    frames with the same decoded tag have the same first three bytes. *)
Theorem frame_tag_lossless (f1 f2 : list byte) (tag : VP8FrameTag) :
  VP8.DecodeFrameTag f1 = Ok tag ->
  (tagOf f1 = FrameType tag + 2 * Version tag + 16 * Display tag
              + 32 * FirstPartSize tag /\
   0 <= FrameType tag <= 1 /\ 0 <= Version tag <= 7 /\
   0 <= Display tag <= 1 /\ 0 <= FirstPartSize tag < 2 ^ 19) /\
  (VP8.DecodeFrameTag f2 = Ok tag -> firstn 3 f1 = firstn 3 f2).
Proof.
  intros H1.
  assert (Hfields : forall f t, VP8.DecodeFrameTag f = Ok t ->
            tagOf f = FrameType t + 2 * Version t + 16 * Display t
                      + 32 * FirstPartSize t /\
            0 <= FrameType t <= 1 /\ 0 <= Version t <= 7 /\
            0 <= Display t <= 1 /\ 0 <= FirstPartSize t < 2 ^ 19).
  { intros f t Hd.
    destruct (len_ge_3 f (DecodeFrameTag_ok_len f t Hd)) as (b0 & b1 & b2 & rest & ->).
    rewrite DecodeFrameTag_cons in Hd. injection Hd as <-.
    cbn [FrameType Version Display FirstPartSize]. rewrite tagOf_cons.
    pose proof (tag24_range b0 b1 b2) as Hr.
    set (t := tag24 b0 b1 b2) in *. unfold bitfield.
    change (2 ^ 0) with 1. change (2 ^ 1) with 2. change (2 ^ 3) with 8.
    change (2 ^ 4) with 16. change (2 ^ 5) with 32.
    change (2 ^ 19) with 524288. change (2 ^ 24) with 16777216 in Hr.
    Z.div_mod_to_equations. lia. }
  split; [exact (Hfields f1 tag H1) |].
  intros H2.
  destruct (Hfields f1 tag H1) as (E1 & _). destruct (Hfields f2 tag H2) as (E2 & _).
  destruct (len_ge_3 f1 (DecodeFrameTag_ok_len f1 tag H1)) as (a0 & a1 & a2 & r1 & ->).
  destruct (len_ge_3 f2 (DecodeFrameTag_ok_len f2 tag H2)) as (b0 & b1 & b2 & r2 & ->).
  rewrite tagOf_cons in E1, E2. unfold tag24 in E1, E2.
  pose proof (u8_range a0); pose proof (u8_range a1); pose proof (u8_range a2).
  pose proof (u8_range b0); pose proof (u8_range b1); pose proof (u8_range b2).
  cbn [firstn].
  assert (u8 a0 = u8 b0 /\ u8 a1 = u8 b1 /\ u8 a2 = u8 b2) as (E0 & E1' & E2') by lia.
  apply u8_inj in E0, E1', E2'. now subst.
Qed.

Lemma frame_tag_lossless_witness :
  tagOf [x51; x12; x00] = 1 + 2 * 0 + 16 * 1 + 32 * 146 /\
  firstn 3 [x51; x12; x00; xff] = firstn 3 [x51; x12; x00].
Proof.
  destruct (frame_tag_lossless [x51; x12; x00; xff] [x51; x12; x00]
              {| FrameType := 1; Version := 0; Display := 1; FirstPartSize := 146 |}
              eq_refl) as ((E & _) & Hinj).
  split; [exact E | exact (Hinj eq_refl)].
Defined.

Lemma DecodeKeyFrameHead_no_panic (frame : list byte) :
  VP8.DecodeKeyFrameHead frame <> Panic.
Proof.
  destruct (Z.ltb_spec (len frame) 7) as [Hlt | Hge].
  - rewrite DecodeKeyFrameHead_short by assumption. discriminate.
  - destruct (len_ge_7 frame Hge) as (f0 & f1 & f2 & f3 & f4 & f5 & f6 & rest & ->).
    rewrite DecodeKeyFrameHead_cons.
    destruct (negb _ || negb _ || negb _); discriminate.
Qed.

Lemma DecodeKeyFrameHead_ok_inv (frame : list byte) (head : VP8KeyFrameHead) :
  VP8.DecodeKeyFrameHead frame = Ok head ->
  7 <= len frame /\ firstn 3 frame = startCode.
Proof.
  intros H.
  destruct (Z.ltb_spec (len frame) 7) as [Hlt | Hge].
  - rewrite DecodeKeyFrameHead_short in H by assumption. discriminate.
  - split; [exact Hge |].
    destruct (list_eq_dec Byte.byte_eq_dec (firstn 3 frame) startCode) as [E | E];
      [exact E |].
    rewrite DecodeKeyFrameHead_bad_start in H by assumption. discriminate.
Qed.

(** X3. [DecodeKeyFrameHead] succeeds exactly on inputs of at least 7
    bytes that begin with the start code, and then loses nothing of the
    two 16-bit pairs: each is its 14-bit dimension plus 2^14 times its
    2-bit scale. *)
Theorem key_frame_head_lossless (frame : list byte) :
  ((exists head, VP8.DecodeKeyFrameHead frame = Ok head) <->
   7 <= len frame /\ firstn 3 frame = startCode) /\
  (forall head,
     VP8.DecodeKeyFrameHead frame = Ok head ->
     le16 frame 3 = Width head + 2 ^ 14 * HorizScale head /\
     le16 frame 5 = Height head + 2 ^ 14 * VertScale head /\
     0 <= Width head < 2 ^ 14 /\ 0 <= Height head < 2 ^ 14 /\
     0 <= HorizScale head <= 3 /\ 0 <= VertScale head <= 3).
Proof.
  split.
  - split.
    + intros [head H]. exact (DecodeKeyFrameHead_ok_inv frame head H).
    + intros [Hlen Hsc]. eexists. apply DecodeKeyFrameHead_good; assumption.
  - intros head H.
    destruct (DecodeKeyFrameHead_ok_inv frame head H) as [Hlen Hsc].
    rewrite DecodeKeyFrameHead_good in H by assumption. injection H as <-.
    cbn [Width Height HorizScale VertScale].
    destruct (len_ge_7 frame Hlen) as (f0 & f1 & f2 & f3 & f4 & f5 & f6 & rest & ->).
    unfold le16, byteAt. cbn [nth].
    pose proof (u8_range f3); pose proof (u8_range f4).
    pose proof (u8_range f5); pose proof (u8_range f6).
    unfold bitfield.
    change (2 ^ 0) with 1. change (2 ^ 14) with 16384. change (2 ^ 6) with 64.
    change (2 ^ 2) with 4. change (2 ^ 8) with 256.
    Z.div_mod_to_equations. lia.
Qed.

Lemma key_frame_head_lossless_witness :
  (exists head, VP8.DecodeKeyFrameHead [x9d; x01; x2a; x80; x42; xe0; x81] = Ok head) /\
  le16 [x9d; x01; x2a; x80; x42; xe0; x81] 3 = 640 + 2 ^ 14 * 1.
Proof.
  split.
  - apply (proj1 (key_frame_head_lossless [x9d; x01; x2a; x80; x42; xe0; x81])).
    split; [unfold len; cbn; lia | reflexivity].
  - apply (proj2 (key_frame_head_lossless [x9d; x01; x2a; x80; x42; xe0; x81])
             {| Width := 640; Height := 480; HorizScale := 1; VertScale := 2 |}
             eq_refl).
Defined.

(** X4. [GetVP8Resloution] of go-codec panics exactly on frames shorter
    than 3 bytes (the slice [frame[3:]] is taken unguarded); on frames of
    3 to 9 bytes it returns the too-short error. The older [GetResloution]
    never panics. *)
Theorem vp8_resolution_panic_domain (frame : list byte) :
  (VP8.GetVP8Resloution frame = Panic <-> len frame < 3) /\
  (3 <= len frame < 10 -> VP8.GetVP8Resloution frame = Err InputTooShort) /\
  Part000.GetResloution frame <> Panic.
Proof.
  split; [| split].
  - destruct (Z.ltb_spec (len frame) 3) as [Hlt | Hge].
    + split; [intros _; exact Hlt |]. intros _.
      unfold VP8.GetVP8Resloution, slice_from.
      unfold len in Hlt.
      destruct (Nat.ltb_spec (List.length frame) 3); [reflexivity | lia].
    + rewrite GetVP8Resloution_unfold by exact Hge.
      split; [| lia]. intros H. exfalso.
      pose proof (DecodeKeyFrameHead_no_panic (skipn 3 frame)) as Hn.
      destruct (VP8.DecodeKeyFrameHead (skipn 3 frame)); cbn in H;
        try discriminate H. now apply Hn.
  - intros [H3 H10]. rewrite GetVP8Resloution_unfold by exact H3.
    rewrite DecodeKeyFrameHead_short; [reflexivity |].
    rewrite len_skipn; lia.
  - destruct (Part000.IsKeyFrame frame) eqn:Ek.
    + rewrite GetResloution_key by exact Ek.
      pose proof (DecodeKeyFrameHead_no_panic (skipn 3 frame)) as Hn.
      destruct (VP8.DecodeKeyFrameHead (skipn 3 frame)); cbn;
        try discriminate. intros _. now apply Hn.
    + unfold Part000.GetResloution. rewrite Ek. discriminate.
Qed.

Lemma vp8_resolution_panic_domain_witness :
  VP8.GetVP8Resloution [x00; x00] = Panic /\
  VP8.GetVP8Resloution [x00; x00; x00; x9d; x01; x2a] = Err InputTooShort.
Proof.
  split.
  - apply (proj2 (proj1 (vp8_resolution_panic_domain [x00; x00]))).
    unfold len; cbn; lia.
  - apply (proj1 (proj2 (vp8_resolution_panic_domain
                           [x00; x00; x00; x9d; x01; x2a]))).
    unfold len; cbn; lia.
Defined.

Lemma GetVP8Resloution_good (frame : list byte) :
  10 <= len frame -> firstn 3 (skipn 3 frame) = startCode ->
  VP8.GetVP8Resloution frame
  = Ok (bitfield (le16 frame 6) 0 14, bitfield (le16 frame 8) 0 14).
Proof.
  intros Hlen Hsc. rewrite GetVP8Resloution_unfold by lia.
  rewrite DecodeKeyFrameHead_good; [| rewrite len_skipn; lia | exact Hsc].
  cbn [resolutionOf Width Height].
  destruct (len_ge_3 frame ltac:(lia)) as (b0 & b1 & b2 & rest & ->).
  reflexivity.
Qed.

(** X5. The older [GetResloution] returns a resolution exactly for key
    frames of at least 10 bytes that carry the start code at offsets
    3..5; the resolution is then the two 14-bit dimensions read at
    offsets 6-7 and 8-9, each below 2^14, and it is the result
    [GetVP8Resloution] gives on the same frame. *)
Theorem vp8_resolution_success (frame : list byte) (w h : Z) :
  (Part000.GetResloution frame = Ok (w, h) <->
   Part000.IsKeyFrame frame = true /\ 10 <= len frame /\
   firstn 3 (skipn 3 frame) = startCode /\
   w = bitfield (le16 frame 6) 0 14 /\ h = bitfield (le16 frame 8) 0 14) /\
  (Part000.GetResloution frame = Ok (w, h) ->
   0 <= w < 2 ^ 14 /\ 0 <= h < 2 ^ 14 /\
   VP8.GetVP8Resloution frame = Ok (w, h)).
Proof.
  assert (Hiff : Part000.GetResloution frame = Ok (w, h) <->
            Part000.IsKeyFrame frame = true /\ 10 <= len frame /\
            firstn 3 (skipn 3 frame) = startCode /\
            w = bitfield (le16 frame 6) 0 14 /\ h = bitfield (le16 frame 8) 0 14).
  { split.
    - intros H.
      destruct (Part000.IsKeyFrame frame) eqn:Ek;
        [| unfold Part000.GetResloution in H; rewrite Ek in H; discriminate H].
      pose proof (IsKeyFrame_len frame Ek) as H3.
      rewrite GetResloution_key in H by exact Ek.
      destruct (VP8.DecodeKeyFrameHead (skipn 3 frame)) as [head | e |] eqn:Ed;
        cbn in H; try discriminate H.
      destruct (DecodeKeyFrameHead_ok_inv _ _ Ed) as [Hlen Hsc].
      rewrite len_skipn in Hlen by exact H3.
      assert (H10 : 10 <= len frame) by lia.
      pose proof (GetVP8Resloution_good frame H10 Hsc) as Hv.
      rewrite GetVP8Resloution_unfold, Ed in Hv by exact H3. cbn in Hv.
      rewrite Hv in H. injection H as <- <-. auto.
    - intros (Ek & H10 & Hsc & -> & ->).
      rewrite GetResloution_key, <- GetVP8Resloution_unfold by (exact Ek || lia).
      exact (GetVP8Resloution_good frame H10 Hsc). }
  split; [exact Hiff |].
  intros H. destruct (proj1 Hiff H) as (Ek & H10 & Hsc & -> & ->).
  split; [apply bitfield_range; lia |]. split; [apply bitfield_range; lia |].
  exact (GetVP8Resloution_good frame H10 Hsc).
Qed.

Lemma vp8_resolution_success_witness :
  Part000.GetResloution [x00; x00; x00; x9d; x01; x2a; x80; x02; xe0; x01]
  = Ok (640, 480) /\
  VP8.GetVP8Resloution [x00; x00; x00; x9d; x01; x2a; x80; x02; xe0; x01]
  = Ok (640, 480).
Proof.
  assert (H : Part000.GetResloution
                [x00; x00; x00; x9d; x01; x2a; x80; x02; xe0; x01] = Ok (640, 480)).
  { apply (proj1 (vp8_resolution_success
                    [x00; x00; x00; x9d; x01; x2a; x80; x02; xe0; x01] 640 480)).
    repeat split; reflexivity. }
  split; [exact H |].
  apply (proj2 (vp8_resolution_success
                  [x00; x00; x00; x9d; x01; x2a; x80; x02; xe0; x01] 640 480) H).
Defined.

(** X6. [CreateVP8VpcCExtradata] of go-codec fails with the too-short
    error on fewer than 3 bytes and otherwise returns the 8-byte record
    whose byte 0 is the version (bits 1-3 of byte 0 of the frame, so at
    most 7) followed by 00 81 02 02 02 00 00; it does so for inter frames
    as for key frames. *)
Theorem vp8_vpcc_record (frame : list byte) :
  (len frame < 3 -> VP8.CreateVP8VpcCExtradata frame = Err InputTooShort) /\
  (3 <= len frame ->
   VP8.CreateVP8VpcCExtradata frame
   = Ok [toByte (bitfield (byteAt frame 0) 1 3);
         x00; x81; x02; x02; x02; x00; x00] /\
   u8 (toByte (bitfield (byteAt frame 0) 1 3)) = bitfield (byteAt frame 0) 1 3 /\
   0 <= bitfield (byteAt frame 0) 1 3 <= 7).
Proof.
  split.
  - intros H. unfold VP8.CreateVP8VpcCExtradata.
    now rewrite DecodeFrameTag_short by exact H.
  - intros H. destruct (len_ge_3 frame H) as (b0 & b1 & b2 & rest & ->).
    unfold VP8.CreateVP8VpcCExtradata. rewrite DecodeFrameTag_cons.
    cbn [Version]. rewrite tag_low_bits by lia.
    unfold byteAt. cbn [nth].
    pose proof (bitfield_range (u8 b0) 1 3 ltac:(lia)) as Hr.
    change (2 ^ 3) with 8 in Hr.
    split; [reflexivity |]. split; [apply u8_toByte; lia | lia].
Qed.

Lemma vp8_vpcc_record_witness :
  VP8.IsVP8KeyFrame [x07; x00; x00] = false /\
  VP8.CreateVP8VpcCExtradata [x07; x00; x00]
  = Ok [x03; x00; x81; x02; x02; x02; x00; x00].
Proof.
  split; [reflexivity |].
  destruct (proj2 (vp8_vpcc_record [x07; x00; x00])) as (H & _).
  - unfold len; cbn; lia.
  - rewrite H. reflexivity.
Defined.

(** X7. The older [CreateVP8VpcCExtradata] refuses every frame that is
    not a key frame, and for a key frame returns 14 bytes: the FullBox
    header 01 00 00 00, the version (bits 1-3 of byte 0 of the frame),
    then 00 08 00 01 02 02 02 00 00, with bit depth, subsampling and range
    flag each in a byte of its own. *)
Theorem vp8_vpcc_record_older (frame : list byte) :
  (Part000.IsKeyFrame frame = false ->
   Part000.CreateVP8VpcCExtradata frame = Err NotAKeyframe) /\
  (Part000.IsKeyFrame frame = true ->
   Part000.CreateVP8VpcCExtradata frame
   = Ok [x01; x00; x00; x00;
         toByte (bitfield (byteAt frame 0) 1 3);
         x00; x08; x00; x01; x02; x02; x02; x00; x00]).
Proof.
  split; intros Hk; unfold Part000.CreateVP8VpcCExtradata; rewrite Hk; cbn [negb].
  - reflexivity.
  - destruct (len_ge_3 frame (IsKeyFrame_len frame Hk)) as (b0 & b1 & b2 & rest & ->).
    change (Part000.DecodeFrameTag (b0 :: b1 :: b2 :: rest))
      with (VP8.DecodeFrameTag (b0 :: b1 :: b2 :: rest)).
    rewrite DecodeFrameTag_cons. cbn [Version]. rewrite tag_low_bits by lia.
    reflexivity.
Qed.

Lemma vp8_vpcc_record_older_witness :
  Part000.CreateVP8VpcCExtradata [x07; x00; x00] = Err NotAKeyframe /\
  Part000.CreateVP8VpcCExtradata [x06; x00; x00]
  = Ok [x01; x00; x00; x00; x03; x00; x08; x00; x01; x02; x02; x02; x00; x00].
Proof.
  split.
  - apply (proj1 (vp8_vpcc_record_older [x07; x00; x00])). reflexivity.
  - rewrite (proj2 (vp8_vpcc_record_older [x06; x00; x00]) eq_refl). reflexivity.
Defined.

(** * Further properties of the VP9 parser *)

Lemma IsVP9KeyFrame_cons (b : byte) (rest : list byte) :
  VP9.IsVP9KeyFrame (b :: rest) = (Z.land (u8 b) 0xCC =? 0x80).
Proof.
  unfold VP9.IsVP9KeyFrame.
  assert (Hlen : (len (b :: rest) <? 1) = false).
  { apply Z.ltb_ge. rewrite len_cons. pose proof (len_nonneg rest). lia. }
  rewrite Hlen. cbn [index nth_error].
  destruct b; reflexivity.
Qed.

(** X8. A frame passes the VP9 key-frame test exactly when it is not
    empty and bits 7, 6, 3, 2 of byte 0 are 1, 0, 0, 0 (frame marker 10,
    show_existing_frame 0, frame_type 0); profile, show_frame and
    error_resilient bits and all later bytes play no part. *)
Theorem vp9_key_frame_test (frame : list byte) :
  VP9.IsVP9KeyFrame frame = true <->
  frame <> [] /\ Z.land (byteAt frame 0) 0xCC = 0x80.
Proof.
  destruct frame as [| b rest].
  - split; [discriminate | intros [H _]; contradiction].
  - rewrite IsVP9KeyFrame_cons, Z.eqb_eq. unfold byteAt. cbn [nth].
    split; [intros H; split; [discriminate | exact H] | intros [_ H]; exact H].
Qed.

Lemma vp9_key_frame_test_witness :
  VP9.IsVP9KeyFrame [xb3; x00] = true /\
  (VP9.IsVP9KeyFrame [x86] = true -> False).
Proof.
  split.
  - apply (proj2 (vp9_key_frame_test [xb3; x00])).
    split; [discriminate | reflexivity].
  - intros H. apply (proj1 (vp9_key_frame_test [x86])) in H.
    destruct H as [_ H]. discriminate H.
Defined.

(** X9. The VP9 configuration record of a non-empty input has as byte 0
    the profile taken from bits 5-4 of byte 0 of the frame, as byte 2 the
    bit depth in the high nibble (A0 for profiles 2 and 3, 80 otherwise)
    with subsampling and range flag zero, and 00 / 02 02 02 00 00
    elsewhere: only four records are possible. *)
Theorem vp9_vpcc_record (frame : list byte) :
  frame <> [] ->
  let profile := bitfield (byteAt frame 0) 4 2 in
  VP9.CreateVP9VpcCExtradata frame
  = Ok [toByte profile; x00; (if profile >=? 2 then xa0 else x80);
        x02; x02; x02; x00; x00] /\
  0 <= profile <= 3 /\ u8 (toByte profile) = profile.
Proof.
  intros Hne. destruct frame as [| b rest]; [contradiction |].
  cbv zeta. unfold byteAt. cbn [nth].
  pose proof (bitfield_range (u8 b) 4 2 ltac:(lia)) as Hr.
  change (2 ^ 2) with 4 in Hr.
  split; [| split; [lia | apply u8_toByte; lia]].
  unfold VP9.CreateVP9VpcCExtradata. cbn [index nth_error bind].
  destruct b; reflexivity.
Qed.

Lemma vp9_vpcc_record_witness :
  VP9.CreateVP9VpcCExtradata [xb2; x49]
  = Ok [x03; x00; xa0; x02; x02; x02; x00; x00].
Proof.
  destruct (vp9_vpcc_record [xb2; x49]) as (H & _).
  - discriminate.
  - rewrite H. reflexivity.
Defined.

Lemma GetBits_inv (n : nat) (bs bs' : BitStream) (v : Z) :
  GetBits n bs = Some (v, bs') ->
  v = beField (bits bs) (position bs) n /\
  bs' = {| bits := bits bs; position := position bs + n |}.
Proof.
  intros H.
  destruct (Nat.leb_spec (position bs + n) (8 * List.length (bits bs))) as [Hle | Hgt].
  - rewrite GetBits_ok in H by exact Hle. injection H as <- <-. auto.
  - rewrite GetBits_underflow in H by exact Hgt. discriminate.
Qed.

Lemma rbind_inv {A B : Type} (m : Reader A) (k : A -> Reader B)
    (bs bs' : BitStream) (b : B) :
  rbind m k bs = Some (b, bs') ->
  exists a bs1, m bs = Some (a, bs1) /\ k a bs1 = Some (b, bs').
Proof.
  unfold rbind. destruct (m bs) as [[a bs1] |]; [| discriminate].
  intros H. now exists a, bs1.
Qed.

(** X10. A resolution returned by [GetVP9Resloution] has both dimensions
    between 1 and 65536. *)
Theorem vp9_resolution_range (frame : list byte) (w h : Z) :
  VP9.GetVP9Resloution frame = Ok (w, h) ->
  1 <= w <= 65536 /\ 1 <= h <= 65536.
Proof.
  unfold VP9.GetVP9Resloution. intros H.
  destruct ((VP9.headerPrefix ;;; VP9.frameSize) (NewBitStream frame))
    as [[wh bs'] |] eqn:E; [| discriminate H].
  injection H as ->.
  apply rbind_inv in E. destruct E as (profile & bs1 & _ & E).
  unfold VP9.frameSize in E.
  apply rbind_inv in E. destruct E as (r & bs2 & _ & E).
  apply rbind_inv in E. destruct E as (u & bs3 & _ & E).
  apply rbind_inv in E. destruct E as (w1 & bs4 & Hw & E).
  apply rbind_inv in E. destruct E as (h1 & bs5 & Hh & E).
  unfold ret in E. injection E as <- <- _.
  apply GetBits_inv in Hw, Hh. destruct Hw as [-> _]. destruct Hh as [-> _].
  pose proof (beField_range (bits bs3) 16 (position bs3)) as Hw.
  pose proof (beField_range (bits bs4) 16 (position bs4)) as Hh.
  change (2 ^ Z.of_nat 16) with 65536 in Hw, Hh. lia.
Qed.

Lemma vp9_resolution_range_witness :
  1 <= 1280 <= 65536 /\ 1 <= 720 <= 65536.
Proof.
  apply (vp9_resolution_range minimalKeyFrameHeader 1280 720). reflexivity.
Defined.

Lemma spends_ret {A : Type} (a : A) : spends (ret a) 0 0.
Proof.
  intros bs. split.
  - intros a' bs' H. unfold ret in H. injection H as _ <-.
    split; [reflexivity |]. split; [lia | auto].
  - intros _. discriminate.
Qed.

Lemma spends_GetBits (n : nat) : spends (GetBits n) n n.
Proof.
  intros bs. split.
  - intros a bs' H. unfold GetBits in H.
    destruct (Nat.leb_spec (position bs + n) (8 * List.length (bits bs)));
      [| discriminate].
    injection H as _ <-. cbn. split; [reflexivity |]. split; [lia | auto].
  - intros H. rewrite GetBits_ok by exact H. discriminate.
Qed.

Lemma spends_SkipBits (n : nat) : spends (SkipBits n) n n.
Proof.
  intros bs. split.
  - intros a bs' H. unfold SkipBits in H.
    destruct (Nat.leb_spec (position bs + n) (8 * List.length (bits bs)));
      [| discriminate].
    injection H as _ <-. cbn. split; [reflexivity |]. split; [lia | auto].
  - intros H. rewrite SkipBits_ok by exact H. discriminate.
Qed.

Lemma spends_rbind {A B : Type} (m : Reader A) (k : A -> Reader B)
    (lo1 hi1 lo2 hi2 : nat) :
  spends m lo1 hi1 -> (forall a, spends (k a) lo2 hi2) ->
  spends (rbind m k) (lo1 + lo2) (hi1 + hi2).
Proof.
  intros Hm Hk bs. split.
  - intros b bs' H. apply rbind_inv in H. destruct H as (a & bs1 & H1 & H2).
    destruct (proj1 (Hm bs) _ _ H1) as (Hb1 & Hp1 & Hin1).
    destruct (proj1 (Hk a bs1) _ _ H2) as (Hb2 & Hp2 & Hin2).
    rewrite Hb1 in Hb2, Hin2.
    split; [exact Hb2 |]. split; [lia | auto].
  - intros Hroom. unfold rbind.
    destruct (m bs) as [[a bs1] |] eqn:E.
    + destruct (proj1 (Hm bs) _ _ E) as (Hb1 & Hp1 & _).
      apply (proj2 (Hk a bs1)). rewrite Hb1. lia.
    + exfalso. apply (proj2 (Hm bs)); [lia | exact E].
Qed.

Lemma spends_weaken {A : Type} (m : Reader A) (lo hi lo' hi' : nat) :
  spends m lo hi -> (lo' <= lo)%nat -> (hi <= hi')%nat -> spends m lo' hi'.
Proof.
  intros Hm Hlo Hhi bs. split.
  - intros a bs' H. destruct (proj1 (Hm bs) _ _ H) as (Hb & Hp & Hin).
    split; [exact Hb |]. split; [lia | exact Hin].
  - intros Hroom. apply (proj2 (Hm bs)). lia.
Qed.

Lemma spends_when (c : bool) (m : Reader unit) (lo hi : nat) :
  spends m lo hi -> spends (when c m) 0 hi.
Proof.
  intros Hm. unfold when. destruct c.
  - apply (spends_weaken m lo hi); [exact Hm | lia | lia].
  - apply (spends_weaken (ret tt) 0 0); [apply spends_ret | lia | lia].
Qed.

Lemma spends_if {A : Type} (c : bool) (m1 m2 : Reader A) (lo1 hi1 lo2 hi2 : nat) :
  spends m1 lo1 hi1 -> spends m2 lo2 hi2 ->
  spends (if c then m1 else m2) (Nat.min lo1 lo2) (Nat.max hi1 hi2).
Proof.
  intros H1 H2. destruct c.
  - apply (spends_weaken m1 lo1 hi1); [exact H1 | lia | lia].
  - apply (spends_weaken m2 lo2 hi2); [exact H2 | lia | lia].
Qed.

Ltac budget :=
  repeat first
    [ apply spends_ret
    | apply spends_GetBits
    | apply spends_SkipBits
    | eapply spends_when
    | eapply spends_rbind; [| intros ?; cbv beta zeta]
    | eapply spends_if ].

Lemma spends_headerPrefix : spends VP9.headerPrefix 35 45.
Proof.
  eapply spends_weaken.
  - unfold VP9.headerPrefix. budget.
  - cbn. lia.
  - cbn. lia.
Qed.

Lemma spends_frameSize : spends VP9.frameSize 33 65.
Proof.
  eapply spends_weaken.
  - unfold VP9.frameSize. budget.
  - cbn. lia.
  - cbn. lia.
Qed.

(** X11. [GetVP9Resloution] reads between 68 and 110 bits of the frame:
    every frame of at most 8 bytes is answered with the parse error, and
    every frame of at least 14 bytes yields a resolution, whatever its
    content (neither frame marker nor sync code is checked). *)
Theorem vp9_resolution_length_thresholds (frame : list byte) :
  (len frame <= 8 -> VP9.GetVP9Resloution frame = Err ParseError) /\
  (14 <= len frame -> exists w h, VP9.GetVP9Resloution frame = Ok (w, h)).
Proof.
  pose proof (spends_rbind _ (fun _ => VP9.frameSize) _ _ _ _
                spends_headerPrefix (fun _ => spends_frameSize)) as Hb.
  specialize (Hb (NewBitStream frame)). cbn [NewBitStream bits position] in Hb.
  destruct Hb as [Hret Hroom].
  unfold VP9.GetVP9Resloution, len. split.
  - intros Hlen.
    destruct ((VP9.headerPrefix ;;; VP9.frameSize) (NewBitStream frame))
      as [[wh bs'] |] eqn:E; [| reflexivity].
    exfalso. destruct (Hret _ _ eq_refl) as (_ & Hp & Hin). lia.
  - intros Hlen.
    destruct ((VP9.headerPrefix ;;; VP9.frameSize) (NewBitStream frame))
      as [[[w h] bs'] |] eqn:E.
    + now exists w, h.
    + exfalso. apply Hroom; [lia | reflexivity].
Qed.

Lemma vp9_resolution_length_thresholds_witness :
  VP9.GetVP9Resloution [x82; x49; x83; x42; x40; x27; xf8; x16] = Err ParseError /\
  (exists w h,
     VP9.GetVP9Resloution
       [x00; x00; x00; x00; x00; x00; x00; x00; x00; x00; x00; x00; x00; x00]
     = Ok (w, h)).
Proof.
  split.
  - apply (proj1 (vp9_resolution_length_thresholds
                    [x82; x49; x83; x42; x40; x27; xf8; x16])).
    unfold len; cbn; lia.
  - apply (proj2 (vp9_resolution_length_thresholds
                    [x00; x00; x00; x00; x00; x00; x00; x00; x00; x00; x00; x00;
                     x00; x00])).
    unfold len; cbn; lia.
Defined.

(** * Further properties of the depacketizer *)

(** X12. [UnPack] never panics: every index and slice it takes is covered
    by a length test, whatever the unpacker state and the packet. *)
Theorem unpack_never_panics (u : VP8UnPacker) (decoded : error + RtpPacket) :
  snd (UnPack u decoded) <> Panic.
Proof.
  destruct decoded as [err | pkg]; [discriminate |].
  destruct (Payload pkg) as [| b tl] eqn:Ep.
  - destruct (UnPack_rejected u (inr pkg) Ep) as [e ->]. discriminate.
  - assert (Hne : Payload pkg <> []) by (rewrite Ep; discriminate).
    destruct (descriptorLength (Payload pkg)) as [n | e |] eqn:Ed.
    + rewrite (UnPack_ok u pkg n Hne Ed). cbv zeta.
      destruct (Marker (Header pkg) =? 1); discriminate.
    + rewrite (UnPack_err u pkg e Hne Ed). discriminate.
    + exfalso. exact (descriptorLength_no_panic _ Hne Ed).
Qed.

Lemma flag_test (b : byte) (mask k : Z) :
  (mask, k) = (0x80, 7) \/ (mask, k) = (0x40, 6) \/
  (mask, k) = (0x20, 5) \/ (mask, k) = (0x10, 4) ->
  (Z.land (u8 b) mask >? 0) = Z.testbit (u8 b) k.
Proof.
  intros [H | [H | [H | H]]]; injection H as -> ->; destruct b; reflexivity.
Qed.



Lemma intact_inv (payload : list byte) :
  intact payload = true ->
  payload <> [] /\
  exists n, descriptorLength payload = Ok n /\ n <= len payload /\
            kept payload n = stored payload.
Proof.
  unfold intact, stored. intros H. split.
  - intros ->. discriminate H.
  - destruct (descriptorLength payload) as [n | e |]; try discriminate H.
    exists n. apply Z.leb_le in H. auto.
Qed.

Lemma UnPack_intact (u : VP8UnPacker) (pkg : RtpPacket) :
  intact (Payload pkg) = true ->
  UnPack u (inr pkg)
  = let data := carried u pkg ++ stored (Payload pkg) in
    if Marker (Header pkg) =? 1 then
      ({| onRtp := onRtp u; onFrame := onFrame u; frameBuffer := [];
          timestamp := Timestamp (Header pkg);
          lastSequence := SequenceNumber (Header pkg);
          lost := lostAfterTracking u pkg; building := false |},
       callsBefore u pkg
       ++ invoke (onFrame u)
            (CallOnFrame data (Timestamp (Header pkg)) (lostAfterTracking u pkg)),
       Ok tt)
    else
      ({| onRtp := onRtp u; onFrame := onFrame u; frameBuffer := data;
          timestamp := Timestamp (Header pkg);
          lastSequence := SequenceNumber (Header pkg);
          lost := lostAfterTracking u pkg; building := true |},
       callsBefore u pkg, Ok tt).
Proof.
  intros Hi. destruct (intact_inv _ Hi) as (Hne & n & Hd & Hlen & Hk).
  rewrite (UnPack_ok u pkg n Hne Hd). cbv zeta. rewrite Hk.
  destruct (Z.ltb_spec (len (Payload pkg)) n); [lia |]. reflexivity.
Qed.

Lemma callsBefore_idle (u : VP8UnPacker) (pkg : RtpPacket) :
  building u = false -> callsBefore u pkg = invoke (onRtp u) (CallOnRtp pkg).
Proof.
  intros Hb. unfold callsBefore. rewrite trackGroup_calls, Hb, andb_false_r.
  cbn [andb]. apply app_nil_r.
Qed.

Lemma callsBefore_continuing (u : VP8UnPacker) (pkg : RtpPacket) :
  startsGroup u pkg = false ->
  callsBefore u pkg = invoke (onRtp u) (CallOnRtp pkg).
Proof.
  intros Hs. unfold callsBefore. rewrite trackGroup_calls, Hs.
  cbn [andb]. apply app_nil_r.
Qed.

(** X14. While no frame is being built, a packet whose first payload byte
    has the X bit clear and which carries the marker is a whole frame:
    the callback receives the payload without its first byte, with the
    packet's timestamp and [lost = false], and the unpacker is idle again
    with an empty buffer. *)
Theorem single_packet_frame
    (u : VP8UnPacker) (pkg : RtpPacket) (p0 : byte) (body : list byte) :
  building u = false ->
  Payload pkg = p0 :: body -> Z.testbit (u8 p0) 7 = false ->
  Marker (Header pkg) = 1 ->
  UnPack u (inr pkg)
  = ({| onRtp := onRtp u; onFrame := onFrame u; frameBuffer := [];
        timestamp := Timestamp (Header pkg);
        lastSequence := SequenceNumber (Header pkg);
        lost := false; building := false |},
     invoke (onRtp u) (CallOnRtp pkg)
     ++ invoke (onFrame u) (CallOnFrame body (Timestamp (Header pkg)) false),
     Ok tt).
Proof.
  intros Hb Hp Hx Hm.
  assert (Hd : descriptorLength (Payload pkg) = Ok 1).
  { rewrite Hp, descriptorLength_shape, (flag_test p0 0x80 7), Hx by auto.
    reflexivity. }
  assert (Hi : intact (Payload pkg) = true).
  { unfold intact. rewrite Hd, Hp, len_cons. pose proof (len_nonneg body).
    apply Z.leb_le. lia. }
  assert (Hs : stored (Payload pkg) = body).
  { unfold stored. rewrite Hd, Hp. unfold kept. rewrite len_cons.
    pose proof (len_nonneg body).
    destruct (Z.ltb_spec (len body + 1) 1); [lia | reflexivity]. }
  assert (Hg : startsGroup u pkg = true) by (unfold startsGroup; now rewrite Hb).
  rewrite (UnPack_intact u pkg Hi). cbv zeta.
  rewrite Hm, Hs, (callsBefore_idle u pkg Hb).
  unfold carried, lostAfterTracking. rewrite Hg. reflexivity.
Qed.

Lemma single_packet_frame_witness :
  UnPack listening (inr (packet 1 5 1000 [x00; xaa; xbb]))
  = ({| onRtp := true; onFrame := true; frameBuffer := [];
        timestamp := 1000; lastSequence := 5; lost := false; building := false |},
     [CallOnRtp (packet 1 5 1000 [x00; xaa; xbb]); CallOnFrame [xaa; xbb] 1000 false],
     Ok tt).
Proof.
  apply (single_packet_frame listening (packet 1 5 1000 [x00; xaa; xbb])
           x00 [xaa; xbb]); reflexivity.
Defined.

(** X15. The packet callback runs exactly once, and first, for every
    packet with a non-empty payload, also when the call then fails on the
    descriptor; it does not run for a packet that could not be decoded or
    has an empty payload. After it at most two frames are emitted. *)
Theorem packet_callback_once (u : VP8UnPacker) (decoded : error + RtpPacket) :
  match decoded with
  | inl _ => snd (fst (UnPack u decoded)) = []
  | inr pkg =>
      (Payload pkg = [] -> snd (fst (UnPack u decoded)) = []) /\
      (Payload pkg <> [] ->
       exists frames,
         snd (fst (UnPack u decoded))
         = invoke (onRtp u) (CallOnRtp pkg) ++ frames /\
         forallb isFrameCall frames = true /\
         (List.length frames <= 2)%nat)
  end.
Proof.
  destruct decoded as [err | pkg]; [reflexivity |]. split.
  - intros Hp. destruct (UnPack_rejected u (inr pkg) Hp) as [e ->]. reflexivity.
  - intros Hne.
    assert (Hflush : exists flushed,
               callsBefore u pkg = invoke (onRtp u) (CallOnRtp pkg) ++ flushed /\
               forallb isFrameCall flushed = true /\ (List.length flushed <= 1)%nat).
    { unfold callsBefore. eexists. split; [reflexivity |].
      rewrite trackGroup_calls.
      destruct (startsGroup u pkg && building u && (len (frameBuffer u) >? 0));
        [| split; [reflexivity | cbn; lia]].
      unfold invoke. destruct (onFrame u); split; try reflexivity; cbn; lia. }
    destruct Hflush as (flushed & Hc & Hf & Hl).
    destruct (descriptorLength (Payload pkg)) as [n | e |] eqn:Ed.
    + rewrite (UnPack_ok u pkg n Hne Ed). cbv zeta. rewrite Hc.
      destruct (Marker (Header pkg) =? 1); cbn [fst snd].
      * eexists. split; [rewrite <- app_assoc; reflexivity |].
        rewrite forallb_app, Hf, length_app. unfold invoke.
        destruct (onFrame u); cbn; split; try reflexivity; lia.
      * exists flushed. split; [reflexivity |]. split; [exact Hf | lia].
    + rewrite (UnPack_err u pkg e Hne Ed), Hc. cbn [fst snd].
      exists flushed. split; [reflexivity |]. split; [exact Hf | lia].
    + exfalso. exact (descriptorLength_no_panic _ Hne Ed).
Qed.

Lemma packet_callback_once_witness :
  exists frames,
    snd (fst (UnPack {| onRtp := true; onFrame := true; frameBuffer := [xaa];
                        timestamp := 1000; lastSequence := 10; lost := false;
                        building := true |}
                     (inr (packet 1 11 2000 [x00; xbb]))))
    = [CallOnRtp (packet 1 11 2000 [x00; xbb])] ++ frames /\
    forallb isFrameCall frames = true /\ (List.length frames <= 2)%nat.
Proof.
  apply (proj2 (packet_callback_once
                  {| onRtp := true; onFrame := true; frameBuffer := [xaa];
                     timestamp := 1000; lastSequence := 10; lost := false;
                     building := true |}
                  (inr (packet 1 11 2000 [x00; xbb])))).
  discriminate.
Defined.

Lemma UnPackAll_app (u : VP8UnPacker) (l1 l2 : list RtpPacket) :
  UnPackAll u (l1 ++ l2)
  = let '(u1, c1) := UnPackAll u l1 in
    let '(u2, c2) := UnPackAll u1 l2 in
    (u2, c1 ++ c2).
Proof.
  revert u. induction l1 as [| p l1 IH]; intros u.
  - cbn [app UnPackAll]. now destruct (UnPackAll u l2).
  - cbn [app UnPackAll].
    destruct (UnPack u (inr p)) as [[u' calls] r]. rewrite IH.
    destruct (UnPackAll u' l1) as [u1 c1].
    destruct (UnPackAll u1 l2) as [u2 c2].
    now rewrite app_assoc.
Qed.

Lemma last_cons_default {A : Type} (l : list A) (a d : A) :
  last (a :: l) d = last l a.
Proof.
  revert a d. induction l as [| b l IH]; intros a d; [reflexivity |].
  change (last (a :: b :: l) d) with (last (b :: l) d).
  now rewrite !IH.
Qed.

Lemma inOrder_snoc (pkts : list RtpPacket) (prev final : RtpPacket) :
  inOrder (prev :: pkts ++ [final]) ->
  inOrder (prev :: pkts) /\
  Timestamp (Header (last pkts prev)) = Timestamp (Header prev) /\
  Timestamp (Header final) = Timestamp (Header prev) /\
  SequenceNumber (Header final)
  = wrap16 (SequenceNumber (Header (last pkts prev)) + 1).
Proof.
  revert prev. induction pkts as [| p pkts IH]; intros prev H.
  - cbn in H. destruct H as (Ht & Hs & _). cbn. auto.
  - change (inOrder (prev :: p :: (pkts ++ [final]))) in H.
    destruct H as (Ht & Hs & H).
    destruct (IH p H) as (Ho & Hl & Hf & Hq).
    split; [cbn [inOrder]; auto |].
    rewrite (last_cons_default pkts p prev).
    split; [congruence |]. split; [congruence | exact Hq].
Qed.

(** Packets that continue the group being built, none with the marker. *)
Lemma UnPackAll_continuing (pkts : list RtpPacket) :
  forall (prev : RtpPacket) (u : VP8UnPacker),
    building u = true ->
    timestamp u = Timestamp (Header prev) ->
    lastSequence u = SequenceNumber (Header prev) ->
    inOrder (prev :: pkts) ->
    Forall (fun p => Marker (Header p) <> 1 /\ intact (Payload p) = true) pkts ->
    UnPackAll u pkts
    = ({| onRtp := onRtp u; onFrame := onFrame u;
          frameBuffer := frameBuffer u ++ assembled pkts;
          timestamp := timestamp u;
          lastSequence := SequenceNumber (Header (last pkts prev));
          lost := lost u; building := true |},
       rtpCalls u pkts).
Proof.
  induction pkts as [| p pkts IH]; intros prev u Hb Ht Hs Ho Hall.
  - cbn. rewrite app_nil_r, <- Hs, <- Hb. now destruct u.
  - destruct Ho as (Htp & Hsp & Ho).
    pose proof (Forall_inv Hall) as [Hm Hi]. pose proof (Forall_inv_tail Hall) as Hall'.
    assert (Hg : startsGroup u p = false)
      by (apply startsGroup_continuing; congruence).
    cbn [UnPackAll]. rewrite (UnPack_intact u p Hi). cbv zeta.
    destruct (Z.eqb_spec (Marker (Header p)) 1) as [E | _]; [contradiction |].
    rewrite (callsBefore_continuing u p Hg).
    unfold carried, lostAfterTracking. rewrite Hg, Hs, <- Hsp, Z.eqb_refl.
    cbn [negb orb].
    rewrite (IH p) by (cbn; auto).
    cbn [onRtp onFrame frameBuffer timestamp lost].
    rewrite (last_cons_default pkts p prev).
    unfold assembled, rtpCalls. cbn [map List.concat flat_map onRtp].
    rewrite <- app_assoc.
    replace (Timestamp (Header p)) with (timestamp u) by congruence.
    reflexivity.
Qed.

(** X16. Reassembly of a frame. Starting with no frame in progress, a run
    of packets of one timestamp with consecutive sequence numbers (modulo
    2^16), each holding its whole descriptor, only the last one carrying
    the marker, produces one call of the packet callback per packet and
    then exactly one frame: the payloads without their descriptors, in
    arrival order, with that timestamp and [lost = false]. The unpacker
    is idle with an empty buffer afterwards. *)
Theorem group_reassembly
    (u : VP8UnPacker) (pkts : list RtpPacket) (final : RtpPacket) :
  building u = false ->
  inOrder (pkts ++ [final]) ->
  Forall (fun p => Marker (Header p) <> 1 /\ intact (Payload p) = true) pkts ->
  Marker (Header final) = 1 -> intact (Payload final) = true ->
  UnPackAll u (pkts ++ [final])
  = ({| onRtp := onRtp u; onFrame := onFrame u; frameBuffer := [];
        timestamp := Timestamp (Header final);
        lastSequence := SequenceNumber (Header final);
        lost := false; building := false |},
     rtpCalls u (pkts ++ [final])
     ++ invoke (onFrame u)
          (CallOnFrame (assembled (pkts ++ [final]))
             (Timestamp (Header final)) false)).
Proof.
  intros Hb Ho Hall Hm Hi.
  destruct pkts as [| first more].
  - cbn [app UnPackAll]. rewrite (UnPack_intact u final Hi). cbv zeta.
    rewrite Hm, (callsBefore_idle u final Hb).
    assert (Hg : startsGroup u final = true) by (unfold startsGroup; now rewrite Hb).
    unfold carried, lostAfterTracking, assembled, rtpCalls. rewrite Hg.
    cbn. now rewrite !app_nil_r.
  - pose proof (Forall_inv Hall) as [Hm1 Hi1].
    pose proof (Forall_inv_tail Hall) as Hall'.
    change ((first :: more) ++ [final]) with ([first] ++ (more ++ [final])).
    rewrite UnPackAll_app. cbn [UnPackAll].
    rewrite (UnPack_intact u first Hi1). cbv zeta.
    destruct (Z.eqb_spec (Marker (Header first)) 1) as [E | _]; [contradiction |].
    rewrite (callsBefore_idle u first Hb).
    assert (Hg : startsGroup u first = true) by (unfold startsGroup; now rewrite Hb).
    unfold carried, lostAfterTracking. rewrite Hg. cbn [app].
    destruct (inOrder_snoc more first final Ho) as (Ho' & Hlt & Hft & Hfs).
    rewrite UnPackAll_app.
    rewrite (UnPackAll_continuing more first) by (auto || reflexivity).
    cbn [onRtp onFrame frameBuffer timestamp lost app UnPackAll].
    rewrite (UnPack_intact _ final Hi). cbv zeta. rewrite Hm.
    match goal with
    | |- context [callsBefore ?v final] =>
        assert (Hc : startsGroup v final = false)
          by (apply startsGroup_continuing; [reflexivity | exact Hft]);
        rewrite (callsBefore_continuing v final Hc);
        unfold carried, lostAfterTracking; rewrite Hc
    end.
    cbn [onRtp onFrame frameBuffer lastSequence lost].
    rewrite Hfs, !Z.eqb_refl. cbn [negb orb].
    unfold assembled, rtpCalls.
    cbn [map List.concat flat_map app onRtp].
    rewrite !map_app, !concat_app, !flat_map_app. cbn [map List.concat flat_map].
    rewrite !app_nil_r, <- !app_assoc. reflexivity.
Qed.

Lemma group_reassembly_witness :
  UnPackAll listening
    ([packet 0 65535 1000 [x00; xaa]; packet 0 0 1000 [x80; x00; xbb]]
     ++ [packet 1 1 1000 [x00; xcc]])
  = ({| onRtp := true; onFrame := true; frameBuffer := [];
        timestamp := 1000; lastSequence := 1; lost := false; building := false |},
     rtpCalls listening
       ([packet 0 65535 1000 [x00; xaa]; packet 0 0 1000 [x80; x00; xbb]]
        ++ [packet 1 1 1000 [x00; xcc]])
     ++ [CallOnFrame [xaa; xbb; xcc] 1000 false]).
Proof.
  apply (group_reassembly listening
           [packet 0 65535 1000 [x00; xaa]; packet 0 0 1000 [x80; x00; xbb]]
           (packet 1 1 1000 [x00; xcc])).
  - reflexivity.
  - cbn. repeat split; reflexivity.
  - repeat constructor; cbn; discriminate.
  - reflexivity.
  - reflexivity.
Defined.

(** X17. Life of the loss flag. Within a group it is never cleared: a
    packet that continues the group while the flag is set leaves it set.
    A packet that opens a new group and holds its whole descriptor leaves
    it clear, whatever it was before. *)
Theorem loss_flag_lifetime (u : VP8UnPacker) (pkg : RtpPacket) :
  Payload pkg <> [] ->
  (startsGroup u pkg = false -> lost u = true ->
   lost (fst (fst (UnPack u (inr pkg)))) = true) /\
  (startsGroup u pkg = true -> intact (Payload pkg) = true ->
   lost (fst (fst (UnPack u (inr pkg)))) = false).
Proof.
  intros Hne. split.
  - intros Hg Hl.
    assert (Ht : lostAfterTracking u pkg = true).
    { unfold lostAfterTracking. rewrite Hg, Hl. apply orb_true_r. }
    destruct (descriptorLength (Payload pkg)) as [n | e |] eqn:Ed.
    + rewrite (UnPack_ok u pkg n Hne Ed). cbv zeta. rewrite Ht, orb_true_r.
      destruct (Marker (Header pkg) =? 1); reflexivity.
    + rewrite (UnPack_err u pkg e Hne Ed), trackGroup_state. cbn [fst lost].
      exact Ht.
    + exfalso. exact (descriptorLength_no_panic _ Hne Ed).
  - intros Hg Hi. rewrite (UnPack_intact u pkg Hi). cbv zeta.
    unfold lostAfterTracking. rewrite Hg.
    destruct (Marker (Header pkg) =? 1); reflexivity.
Qed.

Lemma loss_flag_lifetime_witness :
  lost (fst (fst (UnPack {| onRtp := true; onFrame := true; frameBuffer := [xaa];
                            timestamp := 1000; lastSequence := 10; lost := true;
                            building := true |}
                         (inr (packet 0 11 1000 [x00; xbb]))))) = true /\
  lost (fst (fst (UnPack {| onRtp := true; onFrame := true; frameBuffer := [xaa];
                            timestamp := 1000; lastSequence := 10; lost := true;
                            building := true |}
                         (inr (packet 0 11 2000 [x00; xbb]))))) = false.
Proof.
  split.
  - apply (proj1 (loss_flag_lifetime
                    {| onRtp := true; onFrame := true; frameBuffer := [xaa];
                       timestamp := 1000; lastSequence := 10; lost := true;
                       building := true |}
                    (packet 0 11 1000 [x00; xbb]) ltac:(discriminate)));
      reflexivity.
  - apply (proj2 (loss_flag_lifetime
                    {| onRtp := true; onFrame := true; frameBuffer := [xaa];
                       timestamp := 1000; lastSequence := 10; lost := true;
                       building := true |}
                    (packet 0 11 2000 [x00; xbb]) ltac:(discriminate)));
      reflexivity.
Defined.

(** X18. Every packet with a non-empty payload is tracked, also when the
    call fails on its descriptor: afterwards timestamp and last sequence
    number are the packet's and the callbacks are as they were. The
    unpacker is idle afterwards exactly when the call succeeded on a
    packet with the marker, and then its buffer is empty. *)
Theorem accepted_packet_is_tracked (u : VP8UnPacker) (pkg : RtpPacket) :
  Payload pkg <> [] ->
  let u' := fst (fst (UnPack u (inr pkg))) in
  timestamp u' = Timestamp (Header pkg) /\
  lastSequence u' = SequenceNumber (Header pkg) /\
  onRtp u' = onRtp u /\ onFrame u' = onFrame u /\
  (building u' = false <->
   snd (UnPack u (inr pkg)) = Ok tt /\ Marker (Header pkg) = 1) /\
  (building u' = false -> frameBuffer u' = []).
Proof.
  intros Hne. cbv zeta.
  destruct (descriptorLength (Payload pkg)) as [n | e |] eqn:Ed.
  - rewrite (UnPack_ok u pkg n Hne Ed). cbv zeta.
    destruct (Z.eqb_spec (Marker (Header pkg)) 1) as [Hm | Hm]; cbn [fst snd];
      cbn [timestamp lastSequence onRtp onFrame building frameBuffer];
      repeat split; auto; try discriminate.
    + intros [_ H]. contradiction.
  - rewrite (UnPack_err u pkg e Hne Ed), trackGroup_state. cbn [fst snd].
    cbn [timestamp lastSequence onRtp onFrame building frameBuffer].
    repeat split; auto; try discriminate.
    intros [H _]. discriminate H.
  - exfalso. exact (descriptorLength_no_panic _ Hne Ed).
Qed.

Lemma accepted_packet_is_tracked_witness :
  lastSequence (fst (fst (UnPack listening (inr (packet 1 7 1000 [x80]))))) = 7 /\
  building (fst (fst (UnPack listening (inr (packet 1 7 1000 [x80]))))) = true.
Proof.
  destruct (accepted_packet_is_tracked listening (packet 1 7 1000 [x80])
              ltac:(discriminate)) as (_ & Hs & _ & _ & Hb & _).
  split; [exact Hs |].
  destruct (building (fst (fst (UnPack listening (inr (packet 1 7 1000 [x80]))))))
    eqn:E; [reflexivity |].
  destruct (proj1 Hb eq_refl) as [H _]. discriminate H.
Defined.

Lemma GetVP9Resloution_after_prefix (frame : list byte) (profile : Z) (p : nat) :
  VP9.headerPrefix (NewBitStream frame)
  = Some (profile, {| bits := frame; position := p |}) ->
  let q := if bitAt frame p =? 1 then (p + 33)%nat else (p + 1)%nat in
  (q + 32 <= 8 * List.length frame)%nat ->
  VP9.GetVP9Resloution frame
  = Ok (beField frame q 16 + 1, beField frame (q + 16) 16 + 1).
Proof.
  intros Hpre q Hq.
  unfold VP9.GetVP9Resloution. unfold rbind at 1. rewrite Hpre.
  pose proof (frameSize_run {| bits := frame; position := p |}) as Hrun.
  cbv zeta in Hrun. cbn [bits position] in Hrun. fold q in Hrun.
  rewrite (Hrun Hq). reflexivity.
Qed.

Lemma profile0_bits (b : byte) :
  Z.land (u8 b) 0x38 = 0 ->
  Z.testbit (u8 b) 5 = false /\ Z.testbit (u8 b) 4 = false /\
  Z.testbit (u8 b) 3 = false.
Proof.
  destruct b; intros H; try discriminate H; repeat split; reflexivity.
Qed.

Lemma colour_space_field (b0 b1 b2 b3 b4 : byte) (rest : list byte) :
  beField (b0 :: b1 :: b2 :: b3 :: b4 :: rest) 32 3 = bitfield (u8 b4) 5 3.
Proof. destruct b4; reflexivity. Qed.

Ltac read_step :=
  first [ rewrite GetBits_ok by (cbn [bits position NewBitStream List.length]; lia)
        | rewrite SkipBits_ok by (cbn [bits position NewBitStream List.length]; lia) ];
  cbn [bits position NewBitStream Nat.add].

Lemma headerPrefix_profile0 (frame : list byte) :
  Z.land (byteAt frame 0) 0x38 = 0 -> 5 <= len frame ->
  VP9.headerPrefix (NewBitStream frame)
  = Some (0, {| bits := frame;
                position := if bitfield (byteAt frame 4) 5 3 =? 7
                            then 35%nat else 36%nat |}).
Proof.
  intros Hp Hlen.
  destruct frame as [| b0 [| b1 [| b2 [| b3 [| b4 rest]]]]];
    try (unfold len in Hlen; cbn in Hlen; lia).
  unfold byteAt in *. cbn [nth] in *.
  destruct (profile0_bits b0 Hp) as (H5 & H4 & H3).
  assert (E2 : beField (b0 :: b1 :: b2 :: b3 :: b4 :: rest) 2 1 = 0).
  { cbn [beField].
    change (bitAt (b0 :: b1 :: b2 :: b3 :: b4 :: rest) (2 + 0))
      with (Z.b2z (Z.testbit (u8 b0) 5)).
    rewrite H5. reflexivity. }
  assert (E3 : beField (b0 :: b1 :: b2 :: b3 :: b4 :: rest) 3 1 = 0).
  { cbn [beField].
    change (bitAt (b0 :: b1 :: b2 :: b3 :: b4 :: rest) (3 + 0))
      with (Z.b2z (Z.testbit (u8 b0) 4)).
    rewrite H4. reflexivity. }
  assert (E4 : beField (b0 :: b1 :: b2 :: b3 :: b4 :: rest) 4 1 = 0).
  { cbn [beField].
    change (bitAt (b0 :: b1 :: b2 :: b3 :: b4 :: rest) (4 + 0))
      with (Z.b2z (Z.testbit (u8 b0) 3)).
    rewrite H3. reflexivity. }
  pose proof (colour_space_field b0 b1 b2 b3 b4 rest) as Ecs.
  unfold VP9.headerPrefix, rbind.
  read_step. read_step. rewrite E2. read_step. rewrite E3.
  change (Z.lor (Z.shiftl 0 1) 0) with 0.
  cbn [Z.eqb when ret].
  read_step. rewrite E4. cbn [Z.eqb when ret].
  read_step. read_step. read_step. read_step.
  cbn [Z.geb Z.compare ret].
  read_step. rewrite Ecs.
  destruct (bitfield (u8 b4) 5 3 =? 7); cbn [negb orb Z.eqb when ret].
  - reflexivity.
  - read_step. reflexivity.
Qed.

Lemma SkipBits_underflow (n : nat) (bs : BitStream) :
  (8 * List.length (bits bs) < position bs + n)%nat -> SkipBits n bs = None.
Proof.
  intros H. unfold SkipBits.
  destruct (Nat.leb_spec (position bs + n) (8 * List.length (bits bs)));
    [lia | reflexivity].
Qed.

Lemma frameSize_underflow (bs : BitStream) :
  let p := position bs in
  let q := if bitAt (bits bs) p =? 1 then (p + 33)%nat else (p + 1)%nat in
  (8 * List.length (bits bs) < q + 32)%nat ->
  VP9.frameSize bs = None.
Proof.
  destruct bs as [buf p]. cbn [bits position]. cbv zeta. intros Hq.
  unfold VP9.frameSize, rbind.
  destruct (Nat.leb_spec (p + 1) (8 * List.length buf)) as [Hp | Hp];
    [| now rewrite GetBits_underflow by (cbn [bits position]; lia)].
  rewrite GetBits_ok by exact Hp. cbn [bits position beField].
  rewrite Nat.add_0_r, Z.mul_0_r, Z.add_0_l.
  destruct (bitAt buf p =? 1); unfold when, ret;
    repeat match goal with
      | |- context [SkipBits ?n ?s] =>
          destruct (Nat.leb_spec (position s + n) (8 * List.length (bits s)));
          [rewrite (SkipBits_ok n s) by assumption
          | rewrite (SkipBits_underflow n s) by assumption; reflexivity]
      | |- context [GetBits ?n ?s] =>
          destruct (Nat.leb_spec (position s + n) (8 * List.length (bits s)));
          [rewrite (GetBits_ok n s) by assumption
          | rewrite (GetBits_underflow n s) by assumption; reflexivity]
      end;
    cbn [bits position] in *; lia.
Qed.

Lemma GetVP9Resloution_profile0 (frame : list byte) :
  Z.land (byteAt frame 0) 0x38 = 0 -> 5 <= len frame ->
  let p := if bitfield (byteAt frame 4) 5 3 =? 7 then 35%nat else 36%nat in
  let q := if bitAt frame p =? 1 then (p + 33)%nat else (p + 1)%nat in
  VP9.GetVP9Resloution frame
  = if (q + 32 <=? 8 * List.length frame)%nat
    then Ok (beField frame q 16 + 1, beField frame (q + 16) 16 + 1)
    else Err ParseError.
Proof.
  intros Hp Hlen p q.
  pose proof (headerPrefix_profile0 frame Hp Hlen) as Hpre. fold p in Hpre.
  destruct (Nat.leb_spec (q + 32) (8 * List.length frame)) as [Hq | Hq].
  - exact (GetVP9Resloution_after_prefix frame 0 p Hpre Hq).
  - unfold VP9.GetVP9Resloution. unfold rbind at 1. rewrite Hpre.
    pose proof (frameSize_underflow {| bits := frame; position := p |}) as Hf.
    cbv zeta in Hf. cbn [bits position] in Hf. fold q in Hf.
    now rewrite (Hf Hq).
Qed.

(** X19. Layout of a profile-0 header. When bits 5, 4 and 3 of byte 0 are
    clear (profile 0, show_existing_frame 0) the render flag is read at
    bit 35 if the colour space (top three bits of byte 4) is 7 and at bit
    36 otherwise; the dimensions follow it directly, or 32 bits later when
    the flag is set. The frame yields these two fields plus one when it
    reaches the end of the second, and the parse error otherwise. *)
Theorem vp9_profile0_layout (frame : list byte) :
  Z.land (byteAt frame 0) 0x38 = 0 -> 5 <= len frame ->
  let p := if bitfield (byteAt frame 4) 5 3 =? 7 then 35%nat else 36%nat in
  let q := if bitAt frame p =? 1 then (p + 33)%nat else (p + 1)%nat in
  VP9.GetVP9Resloution frame
  = if (q + 32 <=? 8 * List.length frame)%nat
    then Ok (beField frame q 16 + 1, beField frame (q + 16) 16 + 1)
    else Err ParseError.
Proof. exact (GetVP9Resloution_profile0 frame). Qed.

Lemma vp9_profile0_layout_witness :
  VP9.GetVP9Resloution minimalKeyFrameHeader
  = Ok (beField minimalKeyFrameHeader 37 16 + 1,
        beField minimalKeyFrameHeader 53 16 + 1).
Proof.
  apply (vp9_profile0_layout minimalKeyFrameHeader).
  - reflexivity.
  - unfold len; cbn; lia.
Defined.

Lemma bitAt_skip_byte (b : byte) (buf : list byte) (i : nat) :
  bitAt (b :: buf) (i + 8) = bitAt buf i.
Proof.
  assert (Hd : ((i + 8) / 8)%nat = S (i / 8)).
  { change (i + 8)%nat with (i + 1 * 8)%nat. rewrite Nat.div_add by lia. lia. }
  assert (Hm : ((i + 8) mod 8)%nat = (i mod 8)%nat).
  { change (i + 8)%nat with (i + 1 * 8)%nat. apply Nat.Div0.mod_add. }
  unfold bitAt. rewrite Hd, Hm. reflexivity.
Qed.

Lemma bitAt_beyond_4 (a0 a1 a2 a3 : byte) (buf : list byte) (i : nat) :
  (32 <= i)%nat -> bitAt (a0 :: a1 :: a2 :: a3 :: buf) i = bitAt buf (i - 32).
Proof.
  intros H. replace i with (i - 32 + 8 + 8 + 8 + 8)%nat at 1 by lia.
  now rewrite !bitAt_skip_byte.
Qed.

Lemma beField_beyond_4 (a0 a1 a2 a3 c0 c1 c2 c3 : byte) (buf : list byte) (n i : nat) :
  (32 <= i)%nat ->
  beField (a0 :: a1 :: a2 :: a3 :: buf) i n = beField (c0 :: c1 :: c2 :: c3 :: buf) i n.
Proof.
  intros H. induction n as [| n IH]; [reflexivity |].
  cbn [beField]. rewrite IH, !bitAt_beyond_4 by lia. reflexivity.
Qed.

Lemma GetVP9Resloution_short (frame : list byte) :
  len frame <= 8 -> VP9.GetVP9Resloution frame = Err ParseError.
Proof.
  intros Hlen.
  pose proof (spends_rbind _ (fun _ => VP9.frameSize) _ _ _ _
                spends_headerPrefix (fun _ => spends_frameSize)) as Hb.
  specialize (Hb (NewBitStream frame)). cbn [NewBitStream bits position] in Hb.
  destruct Hb as [Hret _]. unfold VP9.GetVP9Resloution. unfold len in Hlen.
  destruct ((VP9.headerPrefix ;;; VP9.frameSize) (NewBitStream frame))
    as [[wh bs'] |]; [| reflexivity].
  exfalso. destruct (Hret _ _ eq_refl) as (_ & Hp & Hin). lia.
Qed.

(** X20. For profile-0 frames without show_existing_frame the parser
    checks neither the frame marker, nor the frame-type, show-frame and
    error-resilient bits, nor the three sync-code bytes: two such frames
    that agree from byte 4 on get the same answer. *)
Theorem vp9_sync_code_unchecked
    (a0 a1 a2 a3 c0 c1 c2 c3 : byte) (rest : list byte) :
  Z.land (u8 a0) 0x38 = 0 -> Z.land (u8 c0) 0x38 = 0 ->
  VP9.GetVP9Resloution (a0 :: a1 :: a2 :: a3 :: rest)
  = VP9.GetVP9Resloution (c0 :: c1 :: c2 :: c3 :: rest).
Proof.
  intros Ha Hc. destruct rest as [| b4 rest].
  - rewrite !GetVP9Resloution_short by (unfold len; cbn; lia). reflexivity.
  - assert (Hlen : forall x0 x1 x2 x3,
              5 <= len (x0 :: x1 :: x2 :: x3 :: b4 :: rest)).
    { intros. rewrite !len_cons. pose proof (len_nonneg rest). lia. }
    rewrite (GetVP9Resloution_profile0 (a0 :: a1 :: a2 :: a3 :: b4 :: rest))
      by (exact Ha || apply Hlen).
    rewrite (GetVP9Resloution_profile0 (c0 :: c1 :: c2 :: c3 :: b4 :: rest))
      by (exact Hc || apply Hlen).
    cbv zeta. unfold byteAt. cbn [nth List.length].
    set (p := if bitfield (u8 b4) 5 3 =? 7 then 35%nat else 36%nat).
    assert (Hp : (32 <= p)%nat) by (unfold p; destruct (_ =? 7); lia).
    rewrite (bitAt_beyond_4 a0 a1 a2 a3), (bitAt_beyond_4 c0 c1 c2 c3) by exact Hp.
    set (q := if bitAt (b4 :: rest) (p - 32) =? 1 then (p + 33)%nat else (p + 1)%nat).
    assert (Hq : (32 <= q)%nat) by (unfold q; destruct (_ =? 1); lia).
    rewrite (beField_beyond_4 a0 a1 a2 a3 c0 c1 c2 c3 _ 16 q) by exact Hq.
    rewrite (beField_beyond_4 a0 a1 a2 a3 c0 c1 c2 c3 _ 16 (q + 16)) by lia.
    reflexivity.
Qed.

Lemma vp9_sync_code_unchecked_witness :
  VP9.GetVP9Resloution [x00; x00; x00; x00; x40; x27; xf8; x16; x78]
  = Ok (1280, 720).
Proof.
  rewrite (vp9_sync_code_unchecked x00 x00 x00 x00 x82 x49 x83 x42
             [x40; x27; xf8; x16; x78]); reflexivity.
Defined.
